(** * linear-cli: src/utils/actions.ts

    A shallow embedding of the page openers and of the "start work on an
    issue" workflow, and the properties of the specification proved on it.

    The module talks to collaborators that live in other files (the tracker
    client, the configuration, [branchExists], the prompt, the OS opener and
    the subprocess API).  They are gathered in a record [World] of oracles;
    every call that is visible from outside is recorded as an [Event], in the
    order in which the code performs it. *)

From Stdlib Require Import List String Ascii NArith ZArith Bool Lia.
From Stdlib Require Import DecimalString DecimalPos DecimalN.
Import ListNotations.
Local Open Scope string_scope.

Set Implicit Arguments.

(** ** JavaScript values the module manipulates *)

(** A value that is a string or [undefined]. *)
Definition jsopt := option string.

(** [!v] for a string-or-undefined value: [undefined] and the empty string
    are the falsy ones. *)
Definition falsy (v : jsopt) : bool :=
  match v with
  | None => true
  | Some s => String.eqb s ""
  end.

(** A value interpolated in a template literal. *)
Definition interp (v : jsopt) : string :=
  match v with
  | None => "undefined"
  | Some s => s
  end.

(** [a || b] on strings. *)
Definition or_else (v : jsopt) (d : string) : string :=
  if falsy v then d else interp v.

(** A counter interpolated in a template literal.  A counter starts at 1
    and is incremented by 1; JavaScript numbers hold such integers exactly
    up to 2^53, beyond what a repository can hold, and print them in
    decimal without leading zeros.  Counters are natural numbers here. *)
Definition num_to_string (n : N) : string :=
  NilZero.string_of_uint (N.to_uint n).

(** ** Outcomes, events and the monad of the module *)

(** The value of a rejected promise or of a thrown exception. *)
Definition exn := string.

Inductive result (A : Type) : Type :=
| Ok (a : A)
| Err (e : exn).
Arguments Ok {A} a.
Arguments Err {A} e.

(** How a piece of code ends: it returns, it throws, it terminates the
    process ([Deno.exit]), or it is still looping when the fuel is spent. *)
Inductive outcome (A : Type) : Type :=
| Returned (a : A)
| Thrown (e : exn)
| Exited (code : N)
| OutOfFuel.
Arguments Returned {A} a.
Arguments Thrown {A} e.
Arguments Exited {A} code.
Arguments OutOfFuel {A}.

(** Standard streams of a subprocess: [Deno.Command] with
    [stdin/stdout/stderr: "inherit"] and [spawn()], or the default with
    [output()]. *)
Inductive stdio := Inherit | Piped.

Inductive Event : Type :=
| EGetIssueIdentifier (providedId : jsopt)
| EFetchIssueDetails (issueId : string) (withBranch : bool)
| EBranchExists (name : string)
| EPrompt (message : string)
| ECommand (cmd : string) (args : list string) (io : stdio)
| EGetStartedState (teamId : string)
| EUpdateIssueState (issueId stateId : string)
| EOpen (url : string) (app : option string)
| EConsoleLog (msg : string)
| EConsoleError (args : list string)
| EExit (code : N).

Definition trace := list Event.

Definition M (A : Type) : Type := (outcome A * trace)%type.

Definition ret {A} (a : A) : M A := (Returned a, []).

Definition bind {A B} (m : M A) (f : A -> M B) : M B :=
  match m with
  | (Returned a, t) => let '(o, t') := f a in (o, (t ++ t')%list)
  | (Thrown e, t) => (Thrown e, t)
  | (Exited c, t) => (Exited c, t)
  | (OutOfFuel, t) => (OutOfFuel, t)
  end.

Notation "x <- m ;; k" := (bind m (fun x => k))
  (at level 61, m at next level, right associativity).
Notation "m ;;; k" := (bind m (fun _ => k))
  (at level 61, right associativity).

(** [try { body } catch (error) { handler }]: only a thrown value is caught;
    [Deno.exit] ends the process whatever surrounds it. *)
Definition try_catch {A} (body : M A) (handler : exn -> M A) : M A :=
  match body with
  | (Thrown e, t) => let '(o, t') := handler e in (o, (t ++ t')%list)
  | other => other
  end.

(** An awaited call to a collaborator: the call is recorded, then its
    promise resolves or rejects. *)
Definition await {A} (ev : Event) (r : result A) : M A :=
  match r with
  | Ok a => (Returned a, [ev])
  | Err e => (Thrown e, [ev])
  end.

Definition console_log (msg : string) : M unit :=
  (Returned tt, [EConsoleLog msg]).

Definition console_error (args : list string) : M unit :=
  (Returned tt, [EConsoleError args]).

Definition Deno_exit (code : N) : M unit :=
  (Exited code, [EExit code]).

Definition when (c : bool) (m : M unit) : M unit :=
  if c then m else ret tt.

(** ** The collaborators *)

Record IssueDetails := { branchName : string }.
Record WorkflowState := { id : string; name : string }.

Record World := {
  (** ./linear.ts *)
  getIssueIdentifier : jsopt -> jsopt;
  getTeamKey : jsopt;
  fetchIssueDetails : string -> bool -> result IssueDetails;
  getStartedState : string -> result WorkflowState;
  updateIssueState : string -> string -> result unit;
  (** ../config.ts *)
  getOption : string -> jsopt;
  (** ./git.ts; the promise is taken to resolve, with a boolean *)
  branchExists : string -> bool;
  (** Select.prompt of @cliffy/prompt: the value of the chosen option; the
      promise is taken to resolve *)
  Select_prompt : string -> string;
  (** Deno.Command: the [success] flag of the exit status, or the error
      raised when the program cannot be spawned *)
  Deno_Command : string -> list string -> result bool;
  (** open of @opensrc/deno-open *)
  open : string -> option string -> result unit
}.

Record OpenOptions := { app : option bool; web : option bool }.

(** [options.app ? { app: { name: "Linear" } } : undefined] *)
Definition open_target (options : OpenOptions) : option string :=
  match app options with
  | Some true => Some "Linear"
  | _ => None
  end.

Definition workspace_error : list string :=
  ["workspace is not set via command line, configuration file, or environment."].

(** ** Page openers *)

Definition openIssuePage (w : World) (providedId : jsopt)
    (options : OpenOptions) : M unit :=
  issueId <- (Returned (getIssueIdentifier w providedId),
              [EGetIssueIdentifier providedId]) ;;
  when (falsy issueId)
    (console_error
       ["The current branch does not contain a valid linear issue id."] ;;;
     Deno_exit 1) ;;;
  let workspace := getOption w "workspace" in
  when (falsy workspace)
    (console_error workspace_error ;;; Deno_exit 1) ;;;
  let url := "https://linear.app/" ++ interp workspace ++ "/issue/"
             ++ interp issueId in
  let destination :=
    match app options with Some true => "Linear.app" | _ => "web browser" end in
  console_log ("Opening " ++ url ++ " in " ++ destination) ;;;
  await (EOpen url (open_target options)) (open w url (open_target options)).

Definition openProjectPage (w : World) (projectId : string)
    (options : OpenOptions) : M unit :=
  let workspace := getOption w "workspace" in
  when (falsy workspace)
    (console_error workspace_error ;;; Deno_exit 1) ;;;
  let url := "https://linear.app/" ++ interp workspace ++ "/project/"
             ++ projectId in
  let destination :=
    match app options with Some true => "Linear.app" | _ => "web browser" end in
  console_log ("Opening " ++ url ++ " in " ++ destination) ;;;
  await (EOpen url (open_target options)) (open w url (open_target options)).

(** ** JSON.stringify on the values the module serialises

    The filter object of the team view is made of objects, arrays, strings
    and booleans.  An object is the list of its members in insertion order,
    which is the order in which [JSON.stringify] writes string keys. *)

Local Unset Elimination Schemes.
Inductive json : Type :=
| JNull
| JBool (b : bool)
| JString (s : string)
| JArray (items : list json)
| JObject (members : list (string * json)).
Local Set Elimination Schemes.

Definition dquote : ascii := ascii_of_nat 34.
Definition backslash : ascii := ascii_of_nat 92.

Definition hex_digit (n : N) : ascii :=
  if (n <? 10)%N then ascii_of_N (48 + n) else ascii_of_N (87 + n).

(** QuoteJSONString, one code unit at a time. *)
Definition quote_char (c : ascii) : string :=
  let n := N_of_ascii c in
  if Ascii.eqb c dquote then String backslash (String dquote "")
  else if Ascii.eqb c backslash then String backslash (String backslash "")
  else if (n =? 8)%N then String backslash "b"
  else if (n =? 9)%N then String backslash "t"
  else if (n =? 10)%N then String backslash "n"
  else if (n =? 12)%N then String backslash "f"
  else if (n =? 13)%N then String backslash "r"
  else if (n <? 32)%N then
    String backslash
      (String "u" (String "0" (String "0"
         (String (hex_digit (n / 16)%N) (String (hex_digit (n mod 16)%N) "")))))
  else String c "".

Fixpoint quote_body (s : string) : string :=
  match s with
  | EmptyString => ""
  | String c rest => quote_char c ++ quote_body rest
  end.

Definition quote (s : string) : string :=
  String dquote (quote_body s ++ String dquote "").

Fixpoint join (sep : string) (parts : list string) : string :=
  match parts with
  | [] => ""
  | [p] => p
  | p :: rest => p ++ sep ++ join sep rest
  end.

Fixpoint JSON_stringify (v : json) : string :=
  match v with
  | JNull => "null"
  | JBool true => "true"
  | JBool false => "false"
  | JString s => quote s
  | JArray items => "[" ++ join "," (map JSON_stringify items) ++ "]"
  | JObject members =>
      "{" ++ join ","
               (map (fun kv => let (k, x) := kv : string * json in
                               quote k ++ ":" ++ JSON_stringify x) members)
          ++ "}"
  end.

(** ** encodeBase64 of @std/encoding (RFC 4648, standard alphabet) *)

Definition base64abc : string :=
  "ABCDEFGHIJKLMNOPQRSTUVWXYZabcdefghijklmnopqrstuvwxyz0123456789+/".

Definition b64char (i : N) : ascii :=
  match String.get (N.to_nat i) base64abc with
  | Some c => c
  | None => "A"%char
  end.

(** Three bytes make four sextets; one or two trailing bytes are padded with
    [=] to a full group. *)
Fixpoint encode_bytes (bs : list N) : string :=
  match bs with
  | [] => ""
  | [a] =>
      String (b64char (a / 4)) (String (b64char ((a mod 4) * 16)) "==")
  | [a; b] =>
      String (b64char (a / 4))
        (String (b64char ((a mod 4) * 16 + b / 16))
           (String (b64char ((b mod 16) * 4)) "="))
  | a :: b :: c :: rest =>
      String (b64char (a / 4))
        (String (b64char ((a mod 4) * 16 + b / 16))
           (String (b64char ((b mod 16) * 4 + c / 64))
              (String (b64char (c mod 64)) (encode_bytes rest))))
  end.

(** A string argument is encoded from its UTF-8 bytes, which are the
    characters of a [string] here. *)
Definition encodeBase64 (s : string) : string :=
  encode_bytes (map N_of_ascii (list_ascii_of_string s)).

(** [s.replace(/=/g, "")] *)
Fixpoint remove_equals (s : string) : string :=
  match s with
  | EmptyString => ""
  | String c rest =>
      if Ascii.eqb c "="%char then remove_equals rest
      else String c (remove_equals rest)
  end.

(** *** The way back: decodeBase64 and JSON.parse

    The module only encodes.  The decoder of the same library and the
    parser of the same JSON fragment are what a receiver of the URL applies;
    they are used to state that the encoding loses nothing. *)

Fixpoint index_in (c : ascii) (s : string) (i : N) : option N :=
  match s with
  | EmptyString => None
  | String d rest =>
      if Ascii.eqb c d then Some i else index_in c rest (i + 1)
  end.

Definition b64index (c : ascii) : option N := index_in c base64abc 0.

Definition is_pad (c : ascii) : bool := Ascii.eqb c "="%char.

Definition is_nil {A} (l : list A) : bool :=
  match l with [] => true | _ => false end.

(** Four characters make three bytes; padding is accepted in the last
    group only. *)
Fixpoint decode_chars (cs : list ascii) : option (list N) :=
  match cs with
  | [] => Some []
  | c0 :: c1 :: c2 :: c3 :: rest =>
      match b64index c0, b64index c1 with
      | Some i0, Some i1 =>
          let a := (i0 * 4 + i1 / 16)%N in
          if is_pad c2 then
            if is_pad c3 && is_nil rest then Some [a] else None
          else
            match b64index c2 with
            | Some i2 =>
                let b := ((i1 mod 16) * 16 + i2 / 4)%N in
                if is_pad c3 then
                  if is_nil rest then Some [a; b] else None
                else
                  match b64index c3, decode_chars rest with
                  | Some i3, Some bytes =>
                      Some (a :: b :: ((i2 mod 4) * 64 + i3)%N :: bytes)
                  | _, _ => None
                  end
            | None => None
            end
      | _, _ => None
      end
  | _ => None
  end.

Definition decodeBase64 (s : string) : option string :=
  match decode_chars (list_ascii_of_string s) with
  | Some bytes => Some (string_of_list_ascii (map ascii_of_N bytes))
  | None => None
  end.

Fixpoint pad (n : nat) : string :=
  match n with
  | O => ""
  | S n' => String "="%char (pad n')
  end.

(** Padding put back: [=] up to the next multiple of four characters. *)
Definition restore_padding (s : string) : string :=
  s ++ pad (Nat.modulo (4 - Nat.modulo (String.length s) 4) 4).

Definition is_space (c : ascii) : bool :=
  let n := N_of_ascii c in
  ((n =? 32) || (n =? 9) || (n =? 10) || (n =? 13))%N.

Fixpoint skip_space (s : string) : string :=
  match s with
  | String c rest => if is_space c then skip_space rest else s
  | EmptyString => s
  end.

Definition hex_value (c : ascii) : option N :=
  let n := N_of_ascii c in
  if ((48 <=? n) && (n <=? 57))%N then Some (n - 48)%N
  else if ((97 <=? n) && (n <=? 102))%N then Some (n - 87)%N
  else if ((65 <=? n) && (n <=? 70))%N then Some (n - 55)%N
  else None.

(** The character an escape letter stands for. *)
Definition unescape (c : ascii) : option ascii :=
  let n := N_of_ascii c in
  if Ascii.eqb c dquote then Some dquote
  else if Ascii.eqb c backslash then Some backslash
  else if Ascii.eqb c "/"%char then Some "/"%char
  else if Ascii.eqb c "b"%char then Some (ascii_of_N 8)
  else if Ascii.eqb c "t"%char then Some (ascii_of_N 9)
  else if Ascii.eqb c "n"%char then Some (ascii_of_N 10)
  else if Ascii.eqb c "f"%char then Some (ascii_of_N 12)
  else if Ascii.eqb c "r"%char then Some (ascii_of_N 13)
  else None.

Definition consume (c : ascii) (r : option (string * string))
    : option (string * string) :=
  match r with
  | Some (body, rest) => Some (String c body, rest)
  | None => None
  end.

(** The characters of a string literal after its opening quote, and what
    follows the closing quote.  [\uXXXX] is read for the code points that
    [JSON.stringify] writes this way, those below 0x80. *)
Fixpoint parse_string_body (s : string) : option (string * string) :=
  match s with
  | EmptyString => None
  | String c rest =>
      if Ascii.eqb c dquote then Some ("", rest)
      else if Ascii.eqb c backslash then
        match rest with
        | String e rest1 =>
            if Ascii.eqb e "u"%char then
              match rest1 with
              | String h1 (String h2 (String h3 (String h4 rest2))) =>
                  match hex_value h1, hex_value h2, hex_value h3,
                        hex_value h4 with
                  | Some 0%N, Some 0%N, Some d3, Some d4 =>
                      if (d3 <? 8)%N then
                        consume (ascii_of_N (d3 * 16 + d4))
                                (parse_string_body rest2)
                      else None
                  | _, _, _, _ => None
                  end
              | _ => None
              end
            else
              match unescape e with
              | Some ch => consume ch (parse_string_body rest1)
              | None => None
              end
        | EmptyString => None
        end
      else if (N_of_ascii c <? 32)%N then None
      else consume c (parse_string_body rest)
  end.

Fixpoint strip_prefix (p s : string) : option string :=
  match p, s with
  | EmptyString, _ => Some s
  | String a p', String b s' =>
      if Ascii.eqb a b then strip_prefix p' s' else None
  | _, _ => None
  end.

(** Recursive descent; one unit of fuel per value, member or element. *)
Fixpoint parse_value (fuel : nat) (s : string) : option (json * string) :=
  match fuel with
  | O => None
  | S fuel' =>
      match skip_space s with
      | EmptyString => None
      | String c rest =>
          if Ascii.eqb c "{"%char then
            match skip_space rest with
            | String c' rest' =>
                if Ascii.eqb c' "}"%char then Some (JObject [], rest')
                else
                  match parse_members fuel' rest with
                  | Some (ms, rest2) => Some (JObject ms, rest2)
                  | None => None
                  end
            | EmptyString => None
            end
          else if Ascii.eqb c "["%char then
            match skip_space rest with
            | String c' rest' =>
                if Ascii.eqb c' "]"%char then Some (JArray [], rest')
                else
                  match parse_elements fuel' rest with
                  | Some (vs, rest2) => Some (JArray vs, rest2)
                  | None => None
                  end
            | EmptyString => None
            end
          else if Ascii.eqb c dquote then
            match parse_string_body rest with
            | Some (body, rest') => Some (JString body, rest')
            | None => None
            end
          else
            match strip_prefix "true" (String c rest),
                  strip_prefix "false" (String c rest),
                  strip_prefix "null" (String c rest) with
            | Some rest', _, _ => Some (JBool true, rest')
            | _, Some rest', _ => Some (JBool false, rest')
            | _, _, Some rest' => Some (JNull, rest')
            | _, _, _ => None
            end
      end
  end
with parse_members (fuel : nat) (s : string)
    : option (list (string * json) * string) :=
  match fuel with
  | O => None
  | S fuel' =>
      match skip_space s with
      | String c rest =>
          if Ascii.eqb c dquote then
            match parse_string_body rest with
            | Some (key, rest1) =>
                match skip_space rest1 with
                | String colon rest2 =>
                    if Ascii.eqb colon ":"%char then
                      match parse_value fuel' rest2 with
                      | Some (v, rest3) =>
                          match skip_space rest3 with
                          | String sep rest4 =>
                              if Ascii.eqb sep ","%char then
                                match parse_members fuel' rest4 with
                                | Some (ms, rest5) =>
                                    Some ((key, v) :: ms, rest5)
                                | None => None
                                end
                              else if Ascii.eqb sep "}"%char then
                                Some ([(key, v)], rest4)
                              else None
                          | EmptyString => None
                          end
                      | None => None
                      end
                    else None
                | EmptyString => None
                end
            | None => None
            end
          else None
      | EmptyString => None
      end
  end
with parse_elements (fuel : nat) (s : string)
    : option (list json * string) :=
  match fuel with
  | O => None
  | S fuel' =>
      match parse_value fuel' s with
      | Some (v, rest) =>
          match skip_space rest with
          | String sep rest1 =>
              if Ascii.eqb sep ","%char then
                match parse_elements fuel' rest1 with
                | Some (vs, rest2) => Some (v :: vs, rest2)
                | None => None
                end
              else if Ascii.eqb sep "]"%char then Some ([v], rest1)
              else None
          | EmptyString => None
          end
      | None => None
      end
  end.

(** The fuel covers any text: every unit spent consumes a character. *)
Definition JSON_parse (s : string) : option json :=
  match parse_value (S (String.length s)) s with
  | Some (v, rest) =>
      match skip_space rest with
      | EmptyString => Some v
      | _ => None
      end
  | None => None
  end.

Definition filterObj : json :=
  JObject [("and",
    JArray [JObject [("assignee",
      JObject [("or",
        JArray [JObject [("isMe", JObject [("eq", JBool true)])]])])]])].

Definition encodedFilter : string :=
  remove_equals (encodeBase64 (JSON_stringify filterObj)).

Definition openTeamAssigneeView (w : World) (options : OpenOptions)
    : M unit :=
  let teamId := getTeamKey w in
  when (falsy teamId)
    (console_error
       ["Could not determine team id from configuration or directory name."] ;;;
     Deno_exit 1) ;;;
  let workspace := getOption w "workspace" in
  when (falsy workspace)
    (console_error workspace_error ;;; Deno_exit 1) ;;;
  let filter := encodedFilter in
  let url := "https://linear.app/" ++ interp workspace ++ "/team/"
             ++ interp teamId ++ "/active?filter=" ++ filter in
  await (EOpen url (open_target options)) (open w url (open_target options)).

Example stringify_filterObj :
  JSON_stringify filterObj
  = String "{" (quote "and" ++ ":[{" ++ quote "assignee" ++ ":{" ++ quote "or"
      ++ ":[{" ++ quote "isMe" ++ ":{" ++ quote "eq" ++ ":true}}]}}]}").
Proof. reflexivity. Qed.

Example encodedFilter_value :
  encodedFilter
  = "eyJhbmQiOlt7ImFzc2lnbmVlIjp7Im9yIjpbeyJpc01lIjp7ImVxIjp0cnVlfX1dfX1dfQ".
Proof. reflexivity. Qed.

(** ** The VCS command adapter *)

(** [new Deno.Command(cmd, {args, ...})] run to completion: the call is
    recorded and yields the [success] flag of its status. *)
Definition run_command (w : World) (cmd : string) (args : list string)
    (io : stdio) : M bool :=
  await (ECommand cmd args io) (Deno_Command w cmd args).

Definition checkoutBranch (w : World) (branchName : string)
    (preferGraphite : bool) : M bool :=
  if preferGraphite then
    success <- run_command w "gt" ["checkout"; branchName] Inherit ;;
    if success then
      console_log ("✓ Switched to '" ++ branchName ++ "' using Graphite") ;;;
      ret true
    else ret false
  else
    success <- run_command w "git" ["checkout"; branchName] Piped ;;
    if success then
      console_log ("✓ Switched to '" ++ branchName ++ "'") ;;;
      ret true
    else ret false.

Definition createBranch (w : World) (branchName : string)
    (preferGraphite : bool) (gitSourceRef : jsopt) : M bool :=
  if preferGraphite then
    success <- run_command w "gt" ["create"; branchName] Inherit ;;
    if success then
      console_log ("✓ Created and switched to branch '" ++ branchName
                   ++ "' using Graphite") ;;;
      ret true
    else ret false
  else
    success <- run_command w "git"
                 ["checkout"; "-b"; branchName; or_else gitSourceRef "HEAD"]
                 Piped ;;
    if success then
      console_log ("✓ Created and switched to branch '" ++ branchName ++ "'") ;;;
      ret true
    else ret false.

(** ** The branch resolver *)

Definition probe (w : World) (name : string) : M bool :=
  (Returned (branchExists w name), [EBranchExists name]).

(** [`${baseName}-${suffix}`] *)
Definition suffixed (baseName : string) (suffix : N) : string :=
  baseName ++ "-" ++ num_to_string suffix.

(** The [while] loop of [findAvailableBranchName], from the state
    [(suffix, newBranch)]; one unit of fuel pays for one evaluation of the
    loop condition. *)
Fixpoint findAvailableBranchName_loop (fuel : nat) (w : World)
    (baseName : string) (suffix : N) (newBranch : string) : M string :=
  match fuel with
  | O => (OutOfFuel, [])
  | S fuel' =>
      taken <- probe w newBranch ;;
      if taken then
        let suffix := (suffix + 1)%N in
        let newBranch := suffixed baseName suffix in
        findAvailableBranchName_loop fuel' w baseName suffix newBranch
      else ret newBranch
  end.

Definition findAvailableBranchName (fuel : nat) (w : World)
    (baseName : string) : M string :=
  let suffix := 1%N in
  let newBranch := suffixed baseName suffix in
  findAvailableBranchName_loop fuel w baseName suffix newBranch.

(** ** The workflow orchestrator *)

Definition startWorkOnIssue (fuel : nat) (w : World) (issueId teamId : string)
    (gitSourceRef : jsopt) : M unit :=
  details <- await (EFetchIssueDetails issueId true)
                   (fetchIssueDetails w issueId true) ;;
  let branchName := branchName details in
  let preferGraphite :=
    match getOption w "prefer_graphite" with
    | Some v => String.eqb v "true"
    | None => false
    end in
  present <- probe w branchName ;;
  branchOperationSucceeded <-
    (if present then
       answer <- (Returned
                    (Select_prompt w
                       ("Branch " ++ branchName
                        ++ " already exists. What would you like to do?")),
                  [EPrompt ("Branch " ++ branchName
                            ++ " already exists. What would you like to do?")]) ;;
       if String.eqb answer "switch" then
         checkoutBranch w branchName preferGraphite
       else
         newBranch <- findAvailableBranchName fuel w branchName ;;
         createBranch w newBranch preferGraphite gitSourceRef
     else
       createBranch w branchName preferGraphite gitSourceRef) ;;
  if branchOperationSucceeded : bool then
    try_catch
      (state <- await (EGetStartedState teamId) (getStartedState w teamId) ;;
       when (String.eqb issueId "")
         (console_error ["No issue ID resolved"] ;;; Deno_exit 1) ;;;
       await (EUpdateIssueState issueId (id state))
             (updateIssueState w issueId (id state)) ;;;
       console_log ("✓ Issue state updated to '" ++ name state ++ "'"))
      (fun error => console_error ["Failed to update issue state:"; error])
  else
    console_log "Branch operation failed - issue state not updated".

(** * Properties *)

(** ** What is looked for in a trace *)

Definition is_update (e : Event) : bool :=
  match e with EUpdateIssueState _ _ => true | _ => false end.
Definition is_command (e : Event) : bool :=
  match e with ECommand _ _ _ => true | _ => false end.
Definition is_exit (e : Event) : bool :=
  match e with EExit _ => true | _ => false end.
Definition is_open (e : Event) : bool :=
  match e with EOpen _ _ => true | _ => false end.
Definition is_probe (e : Event) : bool :=
  match e with EBranchExists _ => true | _ => false end.
Definition is_prompt (e : Event) : bool :=
  match e with EPrompt _ => true | _ => false end.

Definition updates (t : trace) : trace := filter is_update t.
Definition commands (t : trace) : trace := filter is_command t.
Definition exits (t : trace) : trace := filter is_exit t.
Definition opens (t : trace) : trace := filter is_open t.
Definition probes (t : trace) : trace := filter is_probe t.
Definition prompts (t : trace) : trace := filter is_prompt t.

(** The suffixes [first, first+1, ...], [count] of them. *)
Fixpoint suffixes_from (first : N) (count : nat) : list N :=
  match count with
  | O => []
  | S count' => first :: suffixes_from (first + 1)%N count'
  end.

Definition probe_events (baseName : string) (ns : list N) : trace :=
  map (fun n => EBranchExists (suffixed baseName n)) ns.

Lemma suffixes_from_snoc first count :
  suffixes_from first (S count)
  = (suffixes_from first count ++ [(first + N.of_nat count)%N])%list.
Proof.
  revert first; induction count as [|count IH]; intros first.
  - simpl. now rewrite N.add_0_r.
  - change (suffixes_from first (S (S count)))
      with (first :: suffixes_from (first + 1)%N (S count)).
    rewrite IH. simpl. do 3 f_equal. lia.
Qed.

Lemma suffixes_from_In first count n :
  In n (suffixes_from first count) <->
  (first <= n /\ n < first + N.of_nat count)%N.
Proof.
  revert first; induction count as [|count IH]; intros first; simpl.
  - lia.
  - rewrite IH. lia.
Qed.

(** ** The suffix search *)

Section SuffixSearch.
Variable w : World.
Variable baseName : string.

Let taken (n : N) : bool := branchExists w (suffixed baseName n).

(** With the names of [k] consecutive suffixes taken and the next one
    free, the loop returns the next one after probing exactly these
    [k + 1] names in order, as soon as the fuel covers the probes. *)
Lemma loop_finds (k : nat) : forall (fuel : nat) (s : N),
  (forall j, (s <= j < s + N.of_nat k)%N -> taken j = true) ->
  taken (s + N.of_nat k) = false ->
  k < fuel ->
  findAvailableBranchName_loop fuel w baseName s (suffixed baseName s)
  = (Returned (suffixed baseName (s + N.of_nat k)),
     probe_events baseName (suffixes_from s (S k))).
Proof.
  induction k as [|k IH]; intros fuel s Htaken Hfree Hfuel;
    (destruct fuel as [|fuel]; [lia|]).
  - rewrite N.add_0_r in *. subst taken. simpl in *.
    unfold probe. simpl. now rewrite Hfree.
  - assert (Hs : taken s = true) by (apply Htaken; lia).
    subst taken. simpl in Hs |- *. unfold probe. simpl. rewrite Hs.
    rewrite (IH fuel (s + 1)%N).
    + simpl. do 3 f_equal. lia.
    + intros j Hj. apply Htaken. lia.
    + replace (s + 1 + N.of_nat k)%N with (s + N.of_nat (S k))%N by lia.
      exact Hfree.
    + lia.
Qed.

(** With every name from [s] on taken, the loop probes as long as there is
    fuel and never returns. *)
Lemma loop_spins : forall (fuel : nat) (s : N),
  (forall j, (s <= j)%N -> taken j = true) ->
  findAvailableBranchName_loop fuel w baseName s (suffixed baseName s)
  = (OutOfFuel, probe_events baseName (suffixes_from s fuel)).
Proof.
  induction fuel as [|fuel IH]; intros s Htaken; [reflexivity|].
  assert (Hs : taken s = true) by (apply Htaken; lia).
  subst taken. simpl in Hs |- *. unfold probe. simpl. rewrite Hs.
  rewrite IH; [reflexivity|]. intros j Hj. apply Htaken. lia.
Qed.

(** Whatever the branches are, the loop only probes names, in increasing
    suffix order, and it either returns the last name probed, which is
    free while the earlier ones are taken, or runs out of fuel. *)
Lemma loop_cases : forall (fuel : nat) (s : N),
  let r := findAvailableBranchName_loop fuel w baseName s
             (suffixed baseName s) in
  (exists k, k < fuel /\
     (forall j, (s <= j < s + N.of_nat k)%N -> taken j = true) /\
     taken (s + N.of_nat k) = false /\
     r = (Returned (suffixed baseName (s + N.of_nat k)),
          probe_events baseName (suffixes_from s (S k))))
  \/ ((forall j, (s <= j < s + N.of_nat fuel)%N -> taken j = true) /\
      r = (OutOfFuel, probe_events baseName (suffixes_from s fuel))).
Proof.
  induction fuel as [|fuel IH]; intros s r.
  - right. split; [intros j Hj; lia | reflexivity].
  - destruct (taken s) eqn:Hs.
    + destruct (IH (s + 1)%N) as [(k & Hk & Ht & Hf & Hr) | (Ht & Hr)].
      * left. exists (S k). split; [lia|].
        assert (Ht' : forall j, (s <= j < s + N.of_nat (S k))%N ->
                                taken j = true).
        { intros j Hj. destruct (N.eq_dec j s) as [->|Hne]; [exact Hs|].
          apply Ht. lia. }
        assert (Hf' : taken (s + N.of_nat (S k)) = false).
        { replace (s + N.of_nat (S k))%N with (s + 1 + N.of_nat k)%N by lia.
          exact Hf. }
        repeat split; auto.
        subst r. apply loop_finds; auto. lia.
      * right.
        assert (Ht' : forall j, (s <= j < s + N.of_nat (S fuel))%N ->
                                taken j = true).
        { intros j Hj. destruct (N.eq_dec j s) as [->|Hne]; [exact Hs|].
          apply Ht. lia. }
        split; [exact Ht'|].
        subst r taken. simpl in Hs |- *. unfold probe. simpl. rewrite Hs.
        simpl in Hr. rewrite Hr. reflexivity.
    + left. exists 0.
      assert (Hf : taken (s + N.of_nat 0) = false)
        by (simpl; rewrite N.add_0_r; exact Hs).
      repeat split; [lia | intros j Hj; lia | exact Hf |].
      subst r. apply loop_finds; [intros j Hj; lia | exact Hf | lia].
Qed.

End SuffixSearch.

(** ** The two halves of the workflow

    [startWorkOnIssue] is read as the branch operation followed by the
    issue-state step; both are the text of the function, cut at the comment
    [// Only update issue state if branch operations succeeded]. *)

Definition branchOperation (fuel : nat) (w : World) (branchName : string)
    (preferGraphite : bool) (gitSourceRef : jsopt) : M bool :=
  present <- probe w branchName ;;
  if present then
    answer <- (Returned
                 (Select_prompt w
                    ("Branch " ++ branchName
                     ++ " already exists. What would you like to do?")),
               [EPrompt ("Branch " ++ branchName
                         ++ " already exists. What would you like to do?")]) ;;
    if String.eqb answer "switch" then
      checkoutBranch w branchName preferGraphite
    else
      newBranch <- findAvailableBranchName fuel w branchName ;;
      createBranch w newBranch preferGraphite gitSourceRef
  else
    createBranch w branchName preferGraphite gitSourceRef.

Definition issueStateStep (w : World) (issueId teamId : string)
    (branchOperationSucceeded : bool) : M unit :=
  if branchOperationSucceeded then
    try_catch
      (state <- await (EGetStartedState teamId) (getStartedState w teamId) ;;
       when (String.eqb issueId "")
         (console_error ["No issue ID resolved"] ;;; Deno_exit 1) ;;;
       await (EUpdateIssueState issueId (id state))
             (updateIssueState w issueId (id state)) ;;;
       console_log ("✓ Issue state updated to '" ++ name state ++ "'"))
      (fun error => console_error ["Failed to update issue state:"; error])
  else
    console_log "Branch operation failed - issue state not updated".

Definition preferGraphite_of (w : World) : bool :=
  match getOption w "prefer_graphite" with
  | Some v => String.eqb v "true"
  | None => false
  end.

Lemma bind_assoc {A B C} (m : M A) (f : A -> M B) (g : B -> M C) :
  bind (bind m f) g = bind m (fun a => bind (f a) g).
Proof.
  destruct m as [[a| | |] t]; simpl; try reflexivity.
  destruct (f a) as [[b| | |] t1]; simpl; try reflexivity.
  destruct (g b) as [o t2]. now rewrite app_assoc.
Qed.

Lemma bind_ext {A B} (m : M A) (f g : A -> M B) :
  (forall a, f a = g a) -> bind m f = bind m g.
Proof.
  intros H. destruct m as [[a| | |] t]; simpl; try reflexivity.
  now rewrite H.
Qed.

Lemma startWorkOnIssue_halves fuel w issueId teamId gitSourceRef :
  startWorkOnIssue fuel w issueId teamId gitSourceRef
  = (details <- await (EFetchIssueDetails issueId true)
                      (fetchIssueDetails w issueId true) ;;
     succeeded <- branchOperation fuel w (branchName details)
                    (preferGraphite_of w) gitSourceRef ;;
     issueStateStep w issueId teamId succeeded).
Proof.
  unfold startWorkOnIssue. apply bind_ext. intros details.
  unfold branchOperation, preferGraphite_of. cbv zeta.
  now rewrite bind_assoc.
Qed.

(** ** One VCS command per branch operation *)

Definition succeeded_command (w : World) (e : Event) : Prop :=
  match e with
  | ECommand cmd args _ => Deno_Command w cmd args = Ok true
  | _ => False
  end.

(** Events before the VCS command: no command, no update, no exit. *)
Definition silent (e : Event) : bool :=
  negb (is_update e || is_exit e || is_command e).

Definition checkout_command (branchName : string) (preferGraphite : bool)
    : Event :=
  if preferGraphite then ECommand "gt" ["checkout"; branchName] Inherit
  else ECommand "git" ["checkout"; branchName] Piped.

Definition create_command (branchName : string) (preferGraphite : bool)
    (gitSourceRef : jsopt) : Event :=
  if preferGraphite then ECommand "gt" ["create"; branchName] Inherit
  else ECommand "git"
         ["checkout"; "-b"; branchName; or_else gitSourceRef "HEAD"] Piped.

(** The commands of the adapter under a given backend: a checkout or a
    creation. *)
Definition branch_command (preferGraphite : bool) (e : Event) : Prop :=
  (exists b, e = checkout_command b preferGraphite)
  \/ (exists b g, e = create_command b preferGraphite g).

Lemma branch_command_is_command pg e :
  branch_command pg e -> is_command e = true.
Proof.
  intros [(b & ->) | (b & g & ->)]; destruct pg; reflexivity.
Qed.

(** Events of a run whose branch operation did not succeed. *)
Definition idle (w : World) (preferGraphite : bool) (e : Event) : Prop :=
  is_update e = false /\ is_exit e = false /\ ~ succeeded_command w e
  /\ (is_command e = true -> branch_command preferGraphite e).

Lemma silent_idle w pg e : silent e = true -> idle w pg e.
Proof. destruct e; simpl; try discriminate; unfold idle; simpl; easy. Qed.

(** A computation that runs the command [cmd] and nothing else, and reports
    whether it succeeded. *)
Definition runs_only (w : World) (preferGraphite : bool) (cmd : Event)
    (r : M bool) : Prop :=
  branch_command preferGraphite cmd /\
  ((succeeded_command w cmd /\
    exists msg, r = (Returned true, [cmd; EConsoleLog msg]))
   \/ (~ succeeded_command w cmd /\ snd r = [cmd] /\
       (fst r = Returned false \/ exists e, fst r = Thrown e))).

Lemma checkoutBranch_runs_only w b pg :
  runs_only w pg (checkout_command b pg) (checkoutBranch w b pg).
Proof.
  split; [left; exists b; reflexivity|].
  unfold checkoutBranch, checkout_command, run_command.
  destruct pg; simpl;
    match goal with |- context [Deno_Command w ?c ?a] =>
      destruct (Deno_Command w c a) as [[|]|e] end; simpl;
    solve [ left; split; [reflexivity | eexists; reflexivity]
          | right; split; [discriminate | split; [reflexivity|]];
            solve [left; reflexivity | right; eexists; reflexivity] ].
Qed.

Lemma createBranch_runs_only w b pg g :
  runs_only w pg (create_command b pg g) (createBranch w b pg g).
Proof.
  split; [right; exists b, g; reflexivity|].
  unfold createBranch, create_command, run_command.
  destruct pg; simpl;
    match goal with |- context [Deno_Command w ?c ?a] =>
      destruct (Deno_Command w c a) as [[|]|e] end; simpl;
    solve [ left; split; [reflexivity | eexists; reflexivity]
          | right; split; [discriminate | split; [reflexivity|]];
            solve [left; reflexivity | right; eexists; reflexivity] ].
Qed.

(** The branch operation either succeeded, and then its trace ends with the
    successful command and its confirmation line, or nothing in its trace
    is a successful command. *)
Definition branch_succeeded (w : World) (pg : bool) (r : M bool) : Prop :=
  exists pre cmd msg,
    Forall (fun e => silent e = true) pre /\ branch_command pg cmd /\
    succeeded_command w cmd /\
    r = (Returned true, (pre ++ [cmd; EConsoleLog msg])%list).

Definition branch_failed (w : World) (pg : bool) (r : M bool) : Prop :=
  Forall (idle w pg) (snd r) /\
  (fst r = Returned false \/ (exists e, fst r = Thrown e) \/ fst r = OutOfFuel).

Lemma probe_events_silent b ns :
  Forall (fun e => silent e = true) (probe_events b ns).
Proof. unfold probe_events. apply Forall_forall. intros e He.
  apply in_map_iff in He. destruct He as (n & <- & _). reflexivity. Qed.

Lemma after_prefix w pg (pre : trace) (cmd : Event) (r : M bool) :
  Forall (fun e => silent e = true) pre ->
  runs_only w pg cmd r ->
  branch_succeeded w pg (fst r, (pre ++ snd r)%list)
  \/ branch_failed w pg (fst r, (pre ++ snd r)%list).
Proof.
  intros Hpre (Hc & [(Hok & msg & ->) | (Hko & Ht & Ho)]); simpl.
  - left. exists pre, cmd, msg. auto.
  - right. split; simpl.
    + rewrite Ht. apply Forall_app. split.
      * eapply Forall_impl; [|exact Hpre]. intros e. apply silent_idle.
      * constructor; [|constructor].
        pose proof (branch_command_is_command Hc) as Hc'.
        destruct cmd; try discriminate. unfold idle. simpl. auto.
    + tauto.
Qed.

Lemma bind_returned {A B} (a : A) (t : trace) (f : A -> M B) :
  bind (Returned a, t) f = (fst (f a), (t ++ snd (f a))%list).
Proof. simpl. now destruct (f a). Qed.

Lemma branchOperation_cases fuel w b pg g :
  let r := branchOperation fuel w b pg g in
  branch_succeeded w pg r \/ branch_failed w pg r.
Proof.
  unfold branchOperation, probe. rewrite bind_returned.
  destruct (branchExists w b).
  - rewrite bind_returned. cbn [fst snd].
    destruct (Select_prompt w _ =? "switch").
    + rewrite app_assoc.
      apply (@after_prefix w pg _ (checkout_command b pg)
               (checkoutBranch w b pg));
        [repeat constructor | apply checkoutBranch_runs_only].
    + unfold findAvailableBranchName.
      destruct (loop_cases w b fuel 1) as [(k & _ & _ & _ & ->) | (_ & ->)].
      * rewrite bind_returned. cbn [fst snd]. rewrite !app_assoc.
        apply (@after_prefix w pg _
                 (create_command (suffixed b (1 + N.of_nat k)) pg g)
                 (createBranch w (suffixed b (1 + N.of_nat k)) pg g));
          [|apply createBranch_runs_only].
        apply Forall_app. split; [repeat constructor|].
        apply probe_events_silent.
      * right. cbn [bind fst snd]. split; [|tauto].
        eapply Forall_impl; [intros e; apply silent_idle|].
        repeat (apply Forall_app; split);
          try apply probe_events_silent; repeat constructor.
  - cbn [fst snd].
    apply (@after_prefix w pg _ (create_command b pg g)
             (createBranch w b pg g));
      [repeat constructor | apply createBranch_runs_only].
Qed.

(** ** The issue-state step after a successful branch operation *)

Definition update_failure (e : exn) : Event :=
  EConsoleError ["Failed to update issue state:"; e].

Lemma issueStateStep_cases w issueId teamId :
  let r := issueStateStep w issueId teamId true in
  (exists e, getStartedState w teamId = Err e /\
     r = (Returned tt, [EGetStartedState teamId; update_failure e]))
  \/ (exists st, getStartedState w teamId = Ok st /\ issueId = "" /\
        r = (Exited 1, [EGetStartedState teamId;
                        EConsoleError ["No issue ID resolved"]; EExit 1]))
  \/ (exists st e, getStartedState w teamId = Ok st /\ issueId <> "" /\
        updateIssueState w issueId (id st) = Err e /\
        r = (Returned tt, [EGetStartedState teamId;
                           EUpdateIssueState issueId (id st);
                           update_failure e]))
  \/ (exists st, getStartedState w teamId = Ok st /\ issueId <> "" /\
        updateIssueState w issueId (id st) = Ok tt /\
        r = (Returned tt, [EGetStartedState teamId;
                           EUpdateIssueState issueId (id st);
                           EConsoleLog ("✓ Issue state updated to '"
                                        ++ name st ++ "'")])).
Proof.
  unfold issueStateStep.
  destruct (getStartedState w teamId) as [st|e] eqn:Hst.
  - right. destruct (String.eqb_spec issueId "") as [->|Hne].
    + left. exists st. auto.
    + right. unfold when.
      destruct (updateIssueState w issueId (id st)) as [[]|e] eqn:Hup.
      * right. exists st. repeat split; auto. cbn. rewrite Hup. reflexivity.
      * left. exists st, e. repeat split; auto. cbn. rewrite Hup. reflexivity.
  - left. exists e. auto.
Qed.

Lemma issueStateStep_no_command w issueId teamId succeeded :
  commands (snd (issueStateStep w issueId teamId succeeded)) = [].
Proof.
  destruct succeeded; [|reflexivity].
  destruct (issueStateStep_cases w issueId teamId)
    as [(e & _ & ->) | [(st & _ & _ & ->) | [(st & e & _ & _ & _ & ->)
       | (st & _ & _ & _ & ->)]]]; reflexivity.
Qed.

(** ** The shape of every run of the workflow *)

Definition run_without_success (w : World) (r : M unit) : Prop :=
  Forall (idle w (preferGraphite_of w)) (snd r)
  /\ forall code, fst r <> Exited code.

Definition run_with_success (w : World) (issueId teamId : string)
    (r : M unit) : Prop :=
  exists pre cmd msg,
    Forall (fun e => silent e = true) pre
    /\ branch_command (preferGraphite_of w) cmd /\
    succeeded_command w cmd /\
    r = (fst (issueStateStep w issueId teamId true),
         (pre ++ cmd :: EConsoleLog msg
              :: snd (issueStateStep w issueId teamId true))%list).

Lemma startWorkOnIssue_shape fuel w issueId teamId gitSourceRef :
  let r := startWorkOnIssue fuel w issueId teamId gitSourceRef in
  run_without_success w r \/ run_with_success w issueId teamId r.
Proof.
  cbv zeta. rewrite startWorkOnIssue_halves. unfold await.
  destruct (fetchIssueDetails w issueId true) as [details|e].
  - rewrite bind_returned.
    destruct (branchOperation_cases fuel w (branchName details)
                (preferGraphite_of w) gitSourceRef)
      as [(pre & cmd & msg & Hpre & Hc & Hok & ->) | (Hidle & Ho)].
    + right. rewrite bind_returned. cbn [fst snd].
      exists (EFetchIssueDetails issueId true :: pre), cmd, msg.
      repeat split; auto.
      f_equal. rewrite <- app_assoc. reflexivity.
    + left.
      destruct (branchOperation fuel w (branchName details)
                  (preferGraphite_of w) gitSourceRef) as [o t].
      cbn [fst snd] in *.
      destruct Ho as [-> | [(e & ->) | ->]]; cbn [bind fst snd app];
        (split; [|intros code; discriminate]); cbn [snd].
      * constructor; [unfold idle; simpl; easy|].
        apply Forall_app. split; [exact Hidle|].
        constructor; [unfold idle; simpl; easy | constructor].
      * constructor; [unfold idle; simpl; easy | exact Hidle].
      * constructor; [unfold idle; simpl; easy | exact Hidle].
  - left. split; [|intros code; discriminate].
    constructor; [unfold idle; simpl; easy | constructor].
Qed.

(** ** Cutting a trace at its command *)

Local Open Scope list_scope.

Lemma silent_no_command (pre : trace) :
  Forall (fun e => silent e = true) pre -> commands pre = [].
Proof.
  induction 1 as [|e pre He _ IH]; [reflexivity|].
  unfold commands in *. simpl. destruct e; simpl in *; try discriminate; auto.
Qed.

Lemma silent_no_update (pre : trace) :
  Forall (fun e => silent e = true) pre -> updates pre = [].
Proof.
  induction 1 as [|e pre He _ IH]; [reflexivity|].
  unfold updates in *. simpl. destruct e; simpl in *; try discriminate; auto.
Qed.

Lemma silent_no_exit (pre : trace) :
  Forall (fun e => silent e = true) pre -> exits pre = [].
Proof.
  induction 1 as [|e pre He _ IH]; [reflexivity|].
  unfold exits in *. simpl. destruct e; simpl in *; try discriminate; auto.
Qed.

Lemma idle_no_update w pg (t : trace) :
  Forall (idle w pg) t -> updates t = [].
Proof.
  induction 1 as [|e t (Hu & _) _ IH]; [reflexivity|].
  unfold updates in *. simpl. now rewrite Hu.
Qed.

Lemma idle_no_exit w pg (t : trace) :
  Forall (idle w pg) t -> exits t = [].
Proof.
  induction 1 as [|e t (_ & Hx & _) _ IH]; [reflexivity|].
  unfold exits in *. simpl. now rewrite Hx.
Qed.

Lemma commands_app (t u : trace) :
  commands (t ++ u)%list = (commands t ++ commands u)%list.
Proof. apply filter_app. Qed.

Lemma no_command_not_In (t : trace) (e : Event) :
  commands t = [] -> is_command e = true -> ~ In e t.
Proof.
  intros Ht He Hin.
  assert (H : In e (commands t)) by (apply filter_In; auto).
  rewrite Ht in H. exact H.
Qed.

(** A trace with one command is cut at that command in one way only. *)
Lemma command_split_unique (pre post pre' post' : trace) (c c' : Event) :
  commands pre = [] -> commands post = [] ->
  is_command c = true -> is_command c' = true ->
  (pre ++ c :: post = pre' ++ c' :: post')%list ->
  pre' = pre /\ c' = c /\ post' = post.
Proof.
  intros Hpre Hpost Hc Hc'. revert pre' Hpre.
  induction pre as [|a pre IH]; intros [|a' pre'] Hpre Heq; simpl in Heq.
  - injection Heq as -> ->. auto.
  - injection Heq as -> ->. exfalso.
    apply (@no_command_not_In (pre' ++ c' :: post') c' Hpost Hc').
    apply in_elt.
  - injection Heq as -> _. exfalso.
    unfold commands in Hpre. simpl in Hpre. rewrite Hc' in Hpre.
    discriminate.
  - injection Heq as -> Heq.
    assert (Hpre1 : commands pre = []).
    { unfold commands in *. simpl in Hpre.
      destruct (is_command a'); [discriminate | exact Hpre]. }
    destruct (IH pre' Hpre1 Heq) as (-> & -> & ->). auto.
Qed.

(** An update found in a trace whose events before the command are silent
    comes after the command. *)
Lemma update_after_command (pre rest pre' post' : trace) (c u : Event) :
  Forall (fun e => silent e = true) pre ->
  is_command c = true -> is_update u = true ->
  (pre ++ c :: rest = pre' ++ u :: post')%list ->
  In c pre'.
Proof.
  intros Hpre Hc Hu. revert pre'.
  induction Hpre as [|a pre Ha _ IH]; intros [|a' pre'] Heq; simpl in Heq.
  - injection Heq as -> _. destruct u; discriminate.
  - injection Heq as -> _. now left.
  - injection Heq as -> _. destruct u; discriminate.
  - injection Heq as _ Heq. right. now apply IH.
Qed.

(** ** Scenarios *)

(** The issue ENG-123 of team ENG with branch name eng-123, in a repository
    that holds the listed branches. *)
Definition started : WorkflowState :=
  {| id := "state-started"; name := "In Progress" |}.

Definition scenario (branches : list string) (prefer_graphite answer : string)
    (command : result bool) (state : result WorkflowState)
    (updated : result unit) : World :=
  {| getIssueIdentifier := fun providedId => providedId;
     getTeamKey := Some "ENG";
     fetchIssueDetails := fun _ _ => Ok {| branchName := "eng-123" |};
     getStartedState := fun _ => state;
     updateIssueState := fun _ _ => updated;
     getOption := fun key =>
       if key =? "workspace" then Some "acme"
       else if key =? "prefer_graphite" then Some prefer_graphite
       else None;
     branchExists := fun b => existsb (String.eqb b) branches;
     Select_prompt := fun _ => answer;
     Deno_Command := fun _ _ => command;
     open := fun _ _ => Ok tt |}.

(** The same tracker with no configuration at all. *)
Definition unconfigured : World :=
  {| getIssueIdentifier := fun providedId => providedId;
     getTeamKey := Some "ENG";
     fetchIssueDetails := fun _ _ => Ok {| branchName := "eng-123" |};
     getStartedState := fun _ => Ok started;
     updateIssueState := fun _ _ => Ok tt;
     getOption := fun _ => None;
     branchExists := fun _ => false;
     Select_prompt := fun _ => "switch";
     Deno_Command := fun _ _ => Ok true;
     open := fun _ _ => Ok tt |}.

Example run_fresh_branch :
  startWorkOnIssue 0 (scenario [] "false" "create" (Ok true) (Ok started)
                        (Ok tt)) "ENG-123" "ENG" None
  = (Returned tt,
     [EFetchIssueDetails "ENG-123" true; EBranchExists "eng-123";
      ECommand "git" ["checkout"; "-b"; "eng-123"; "HEAD"] Piped;
      EConsoleLog "✓ Created and switched to branch 'eng-123'";
      EGetStartedState "ENG"; EUpdateIssueState "ENG-123" "state-started";
      EConsoleLog "✓ Issue state updated to 'In Progress'"]).
Proof. reflexivity. Qed.

Example run_switch_fails :
  startWorkOnIssue 0 (scenario ["eng-123"] "false" "switch" (Ok false)
                        (Ok started) (Ok tt)) "ENG-123" "ENG" None
  = (Returned tt,
     [EFetchIssueDetails "ENG-123" true; EBranchExists "eng-123";
      EPrompt "Branch eng-123 already exists. What would you like to do?";
      ECommand "git" ["checkout"; "eng-123"] Piped;
      EConsoleLog "Branch operation failed - issue state not updated"]).
Proof. reflexivity. Qed.

Example run_suffix_search :
  startWorkOnIssue 5 (scenario ["eng-123"; "eng-123-1"; "eng-123-2"] "true"
                        "create" (Ok true) (Err "offline") (Ok tt))
    "ENG-123" "ENG" (Some "main")
  = (Returned tt,
     [EFetchIssueDetails "ENG-123" true; EBranchExists "eng-123";
      EPrompt "Branch eng-123 already exists. What would you like to do?";
      EBranchExists "eng-123-1"; EBranchExists "eng-123-2";
      EBranchExists "eng-123-3";
      ECommand "gt" ["create"; "eng-123-3"] Inherit;
      EConsoleLog
        "✓ Created and switched to branch 'eng-123-3' using Graphite";
      EGetStartedState "ENG";
      EConsoleError ["Failed to update issue state:"; "offline"]]).
Proof. reflexivity. Qed.

(** ** What a run looks like once the branch name is resolved *)

(** Events of the issue-state step: tracker calls, console lines, exit. *)
Definition step_event (e : Event) : bool :=
  negb (is_probe e || is_prompt e || is_command e || is_open e).

Lemma issueStateStep_events w issueId teamId succeeded :
  Forall (fun e => step_event e = true)
         (snd (issueStateStep w issueId teamId succeeded)).
Proof.
  destruct succeeded; [|repeat constructor].
  destruct (issueStateStep_cases w issueId teamId)
    as [(e & _ & ->) | [(st & _ & _ & ->) | [(st & e & _ & _ & _ & ->)
       | (st & _ & _ & _ & ->)]]]; repeat constructor.
Qed.

Lemma filter_none {A} (f : A -> bool) (l : list A) :
  Forall (fun a => f a = false) l -> filter f l = [].
Proof.
  induction 1 as [|a l Ha _ IH]; [reflexivity|]. simpl. now rewrite Ha.
Qed.

Lemma step_events_filter (f : Event -> bool) (t : trace) :
  (forall e, step_event e = true -> f e = false) ->
  Forall (fun e => step_event e = true) t -> filter f t = [].
Proof.
  intros Hf Ht. apply filter_none. eapply Forall_impl; [|exact Ht].
  exact Hf.
Qed.

Definition failure_line : Event :=
  EConsoleLog "Branch operation failed - issue state not updated".

(** A branch command followed by the issue-state step. *)
Lemma then_issue_state w pg cmd (r : M bool) issueId teamId :
  runs_only w pg cmd r ->
  (succeeded_command w cmd /\
   exists msg,
     bind r (issueStateStep w issueId teamId)
     = (fst (issueStateStep w issueId teamId true),
        cmd :: EConsoleLog msg :: snd (issueStateStep w issueId teamId true)))
  \/ (~ succeeded_command w cmd /\
      (bind r (issueStateStep w issueId teamId)
       = (Returned tt, [cmd; failure_line])
       \/ exists e, bind r (issueStateStep w issueId teamId)
                    = (Thrown e, [cmd]))).
Proof.
  intros (_ & [(Hok & msg & ->) | (Hko & Ht & Ho)]).
  - left. split; [exact Hok|]. exists msg. now rewrite bind_returned.
  - right. split; [exact Hko|]. destruct r as [o t]. cbn [fst snd] in *.
    subst t. destruct Ho as [-> | (e & ->)].
    + left. reflexivity.
    + right. exists e. reflexivity.
Qed.

(** The events that follow a branch command are neither probes nor
    prompts nor commands. *)
Lemma then_issue_state_events w pg cmd (r : M bool) issueId teamId :
  runs_only w pg cmd r ->
  exists rest,
    snd (bind r (issueStateStep w issueId teamId)) = cmd :: rest
    /\ Forall (fun e => step_event e = true) rest.
Proof.
  intros Hr.
  destruct (@then_issue_state w pg cmd r issueId teamId Hr)
    as [(_ & msg & ->) | (_ & [-> | (e & ->)])]; cbn [snd].
  - eexists. split; [reflexivity|].
    constructor; [reflexivity | apply issueStateStep_events].
  - eexists. split; [reflexivity | repeat constructor].
  - eexists. split; [reflexivity | constructor].
Qed.

Definition prompt_message (branchName : string) : string :=
  ("Branch " ++ branchName
   ++ " already exists. What would you like to do?")%string.

Lemma run_absent fuel w issueId teamId g b :
  fetchIssueDetails w issueId true = Ok {| branchName := b |} ->
  branchExists w b = false ->
  startWorkOnIssue fuel w issueId teamId g
  = (fst (bind (createBranch w b (preferGraphite_of w) g)
               (issueStateStep w issueId teamId)),
     EFetchIssueDetails issueId true :: EBranchExists b
       :: snd (bind (createBranch w b (preferGraphite_of w) g)
                    (issueStateStep w issueId teamId))).
Proof.
  intros Hfetch Habsent. rewrite startWorkOnIssue_halves, Hfetch.
  unfold await. rewrite bind_returned. cbn [branchName].
  unfold branchOperation, probe. rewrite bind_assoc, bind_returned, Habsent.
  reflexivity.
Qed.

Lemma run_suffixed fuel w issueId teamId g b (k : nat) :
  fetchIssueDetails w issueId true = Ok {| branchName := b |} ->
  branchExists w b = true ->
  Select_prompt w (prompt_message b) <> "switch"%string ->
  (forall j, (1 <= j < 1 + N.of_nat k)%N ->
             branchExists w (suffixed b j) = true) ->
  branchExists w (suffixed b (1 + N.of_nat k)) = false ->
  k < fuel ->
  startWorkOnIssue fuel w issueId teamId g
  = (fst (bind (createBranch w (suffixed b (1 + N.of_nat k))
                  (preferGraphite_of w) g)
               (issueStateStep w issueId teamId)),
     EFetchIssueDetails issueId true :: EBranchExists b
       :: EPrompt (prompt_message b)
       :: probe_events b (suffixes_from 1 (S k))
       ++ snd (bind (createBranch w (suffixed b (1 + N.of_nat k))
                       (preferGraphite_of w) g)
                    (issueStateStep w issueId teamId))).
Proof.
  intros Hfetch Hpresent Hanswer Htaken Hfree Hfuel.
  rewrite startWorkOnIssue_halves, Hfetch.
  unfold await. rewrite bind_returned. cbn [branchName].
  unfold branchOperation, probe.
  rewrite bind_assoc, bind_returned, Hpresent.
  rewrite bind_assoc, bind_returned.
  apply String.eqb_neq in Hanswer. fold (prompt_message b).
  rewrite Hanswer.
  unfold findAvailableBranchName.
  rewrite (@loop_finds w b k fuel 1 Htaken Hfree Hfuel).
  rewrite bind_assoc, bind_returned. cbn [fst snd].
  reflexivity.
Qed.

Lemma probe_events_seq b (s : N) (count : nat) :
  probe_events b (suffixes_from s count)
  = map (fun k => EBranchExists (suffixed b (N.of_nat k)))
        (seq (N.to_nat s) count).
Proof.
  revert s. induction count as [|count IH]; intros s; [reflexivity|].
  change (probe_events b (suffixes_from s (S count)))
    with (EBranchExists (suffixed b s)
          :: probe_events b (suffixes_from (s + 1)%N count)).
  rewrite IH. cbn [seq map]. rewrite N2Nat.id.
  replace (N.to_nat (s + 1)) with (S (N.to_nat s)) by lia.
  reflexivity.
Qed.

(** Every command of every run is a command of the adapter under the
    backend chosen by the configuration. *)
Lemma run_commands fuel w issueId teamId g (e : Event) :
  In e (snd (startWorkOnIssue fuel w issueId teamId g)) ->
  is_command e = true ->
  branch_command (preferGraphite_of w) e.
Proof.
  intros Hin He.
  destruct (startWorkOnIssue_shape fuel w issueId teamId g)
    as [(Hidle & _) | (pre & cmd & msg & Hpre & Hc & _ & Hr)].
  - rewrite Forall_forall in Hidle.
    destruct (Hidle e Hin) as (_ & _ & _ & H). auto.
  - rewrite Hr in Hin. cbn [snd] in Hin.
    apply in_app_or in Hin. destruct Hin as [Hin | [<- | [<- | Hin]]].
    + exfalso. rewrite Forall_forall in Hpre. specialize (Hpre e Hin).
      destruct e; discriminate.
    + exact Hc.
    + discriminate.
    + exfalso.
      pose proof (issueStateStep_events w issueId teamId true) as Hs.
      rewrite Forall_forall in Hs. specialize (Hs e Hin).
      destruct e; discriminate.
Qed.

(** The run of an issue whose branch does not exist: the creation command
    comes right after the probe, and what follows it belongs to the
    issue-state step. *)
Lemma run_absent_events
    (fuel : nat) (w : World) (issueId teamId : string) (gitSourceRef : jsopt)
    (b : string) :
  fetchIssueDetails w issueId true = Ok {| branchName := b |} ->
  branchExists w b = false ->
  exists rest,
    snd (startWorkOnIssue fuel w issueId teamId gitSourceRef)
    = EFetchIssueDetails issueId true :: EBranchExists b
        :: create_command b (preferGraphite_of w) gitSourceRef :: rest
    /\ Forall (fun e => step_event e = true) rest.
Proof.
  intros Hfetch Habsent.
  rewrite (@run_absent fuel w issueId teamId gitSourceRef b Hfetch Habsent).
  cbn [snd].
  pose proof (createBranch_runs_only w b (preferGraphite_of w) gitSourceRef)
    as Hruns.
  destruct (@then_issue_state_events w _ _ _ issueId teamId Hruns)
    as (rest & Hrest & Hev).
  exists rest. now rewrite Hrest.
Qed.

Lemma create_command_kind b pg g :
  is_command (create_command b pg g) = true
  /\ is_probe (create_command b pg g) = false
  /\ is_prompt (create_command b pg g) = false.
Proof. destruct pg; repeat split. Qed.

(** ** The options read from the caller and the configuration *)

Lemma or_else_undefined d : or_else None d = d.
Proof. reflexivity. Qed.

Lemma or_else_given s d : s <> ""%string -> or_else (Some s) d = s.
Proof.
  intros Hs. unfold or_else, falsy. apply String.eqb_neq in Hs.
  now rewrite Hs.
Qed.

Lemma preferGraphite_of_true w :
  preferGraphite_of w = true <->
  getOption w "prefer_graphite" = Some "true"%string.
Proof.
  unfold preferGraphite_of.
  destruct (getOption w "prefer_graphite") as [v|]; [|easy].
  rewrite String.eqb_eq. split; congruence.
Qed.

(** ** The filter of the team view *)

Lemma remove_equals_no_pad (s : string) :
  ~ In "="%char (list_ascii_of_string (remove_equals s)).
Proof.
  induction s as [|c s IH]; simpl; [tauto|].
  destruct (Ascii.eqb_spec c "="%char) as [->|Hne]; [exact IH|].
  simpl. intros [Heq | Hin]; [now apply Hne | now apply IH].
Qed.

Section Base64.

#[local] Ltac Zify.zify_post_hook ::= Z.to_euclidean_division_equations.

Lemma b64_table :
  forallb (fun k =>
             match b64index (b64char (N.of_nat k)) with
             | Some j => (j =? N.of_nat k)%N && negb (is_pad (b64char (N.of_nat k)))
             | None => false
             end) (seq 0 64) = true.
Proof. vm_compute. reflexivity. Qed.

Lemma b64index_b64char (i : N) :
  (i < 64)%N -> b64index (b64char i) = Some i /\ is_pad (b64char i) = false.
Proof.
  intros Hi. pose proof b64_table as H. rewrite forallb_forall in H.
  specialize (H (N.to_nat i)). rewrite N2Nat.id in H.
  destruct (b64index (b64char i)) as [j|].
  - assert (Hin : In (N.to_nat i) (seq 0 64)) by (apply in_seq; lia).
    apply H in Hin. apply andb_prop in Hin. destruct Hin as (Hj & Hp).
    apply N.eqb_eq in Hj. subst j. split; [reflexivity|].
    now apply negb_true_iff.
  - assert (Hin : In (N.to_nat i) (seq 0 64)) by (apply in_seq; lia).
    apply H in Hin. discriminate.
Qed.

Lemma triples_ind {A} (P : list A -> Prop) :
  P [] -> (forall a, P [a]) -> (forall a b, P [a; b]) ->
  (forall a b c l, P l -> P (a :: b :: c :: l)) ->
  forall l, P l.
Proof.
  intros H0 H1 H2 H3.
  assert (H : forall l, P l /\ (forall a, P (a :: l))
                        /\ (forall a b, P (a :: b :: l))).
  { induction l as [|x l (IH0 & IH1 & IH2)]; [auto|].
    split; [apply IH1|]. split; [intros a; apply IH2|].
    intros a b. now apply H3. }
  intros l. apply H.
Qed.

(** [decode_chars] inverts [encode_bytes] on every byte sequence. *)
Lemma decode_encode_bytes (bs : list N) :
  Forall (fun a => (a < 256)%N) bs ->
  decode_chars (list_ascii_of_string (encode_bytes bs)) = Some bs.
Proof.
  induction bs as [|a|a b|a b c rest IH] using triples_ind; intros Hbs.
  - reflexivity.
  - inversion Hbs as [|? ? Ha _]; subst.
    cbn [encode_bytes list_ascii_of_string decode_chars].
    destruct (@b64index_b64char (a / 4)) as (-> & _); [lia|].
    destruct (@b64index_b64char ((a mod 4) * 16)) as (-> & _); [lia|].
    cbn. do 2 f_equal. lia.
  - inversion Hbs as [|? ? Ha Hbs']; subst.
    inversion Hbs' as [|? ? Hb _]; subst.
    cbn [encode_bytes list_ascii_of_string decode_chars].
    destruct (@b64index_b64char (a / 4)) as (-> & _); [lia|].
    destruct (@b64index_b64char ((a mod 4) * 16 + b / 16)) as (-> & _);
      [lia|].
    destruct (@b64index_b64char ((b mod 16) * 4)) as (-> & ->); [lia|].
    cbn. f_equal. f_equal; [lia|]. f_equal. lia.
  - inversion Hbs as [|? ? Ha Hbs1]; subst.
    inversion Hbs1 as [|? ? Hb Hbs2]; subst.
    inversion Hbs2 as [|? ? Hc Hrest]; subst.
    cbn [encode_bytes list_ascii_of_string decode_chars].
    destruct (@b64index_b64char (a / 4)) as (-> & _); [lia|].
    destruct (@b64index_b64char ((a mod 4) * 16 + b / 16)) as (-> & _);
      [lia|].
    destruct (@b64index_b64char ((b mod 16) * 4 + c / 64)) as (-> & ->);
      [lia|].
    destruct (@b64index_b64char (c mod 64)) as (-> & ->); [lia|].
    rewrite (IH Hrest). f_equal. f_equal; [lia|]. f_equal; [lia|].
    f_equal. lia.
Qed.

Lemma append_empty_r (s : string) : (s ++ "")%string = s.
Proof. induction s as [|c s IH]; simpl; [reflexivity | now rewrite IH]. Qed.

Lemma remove_equals_app (s t : string) :
  remove_equals (s ++ t) = (remove_equals s ++ remove_equals t)%string.
Proof.
  induction s as [|c s IH]; simpl; [reflexivity|].
  destruct (Ascii.eqb c "="%char); simpl; now rewrite IH.
Qed.

Lemma remove_equals_pad (p : nat) : remove_equals (pad p) = ""%string.
Proof. induction p as [|p IH]; simpl; auto. Qed.

Lemma pad_amount (n p q : nat) :
  p < 4 -> n + p = 4 * q -> Nat.modulo (4 - Nat.modulo n 4) 4 = p.
Proof.
  intros Hp Hq.
  pose proof (Nat.div_mod_eq n 4) as Hn.
  pose proof (Nat.mod_upper_bound n 4 ltac:(discriminate)) as Hr.
  set (r := Nat.modulo n 4) in *. set (d := Nat.div n 4) in *.
  clearbody r d.
  destruct r as [|[|[|[|r]]]]; [| | | |lia];
    destruct p as [|[|[|[|p]]]]; try lia; reflexivity.
Qed.

(** The encoder writes characters of the alphabet, then at most two [=],
    up to a multiple of four characters. *)
Lemma encode_bytes_shape (bs : list N) :
  Forall (fun a => (a < 256)%N) bs ->
  exists core p,
    encode_bytes bs = (core ++ pad p)%string
    /\ remove_equals core = core
    /\ p < 4 /\ exists q, String.length core + p = 4 * q.
Proof.
  induction bs as [|a|a b|a b c rest IH] using triples_ind; intros Hbs.
  - exists ""%string, 0. repeat split; auto. now exists 0.
  - inversion Hbs as [|? ? Ha _]; subst.
    exists (String (b64char (a / 4)) (String (b64char ((a mod 4) * 16)) "")), 2.
    split; [reflexivity|]. split; [|split; [lia | now exists 1]].
    cbn [remove_equals]. fold (is_pad (b64char (a / 4))).
    fold (is_pad (b64char ((a mod 4) * 16))).
    destruct (@b64index_b64char (a / 4)) as (_ & ->); [lia|].
    destruct (@b64index_b64char ((a mod 4) * 16)) as (_ & ->); [lia|].
    reflexivity.
  - inversion Hbs as [|? ? Ha Hbs']; subst.
    inversion Hbs' as [|? ? Hb _]; subst.
    exists (String (b64char (a / 4))
              (String (b64char ((a mod 4) * 16 + b / 16))
                 (String (b64char ((b mod 16) * 4)) ""))), 1.
    split; [reflexivity|]. split; [|split; [lia | now exists 1]].
    cbn [remove_equals].
    fold (is_pad (b64char (a / 4))).
    fold (is_pad (b64char ((a mod 4) * 16 + b / 16))).
    fold (is_pad (b64char ((b mod 16) * 4))).
    destruct (@b64index_b64char (a / 4)) as (_ & ->); [lia|].
    destruct (@b64index_b64char ((a mod 4) * 16 + b / 16)) as (_ & ->);
      [lia|].
    destruct (@b64index_b64char ((b mod 16) * 4)) as (_ & ->); [lia|].
    reflexivity.
  - inversion Hbs as [|? ? Ha Hbs1]; subst.
    inversion Hbs1 as [|? ? Hb Hbs2]; subst.
    inversion Hbs2 as [|? ? Hc Hrest]; subst.
    destruct (IH Hrest) as (core & p & Henc & Hcore & Hp & q & Hlen).
    exists (String (b64char (a / 4))
              (String (b64char ((a mod 4) * 16 + b / 16))
                 (String (b64char ((b mod 16) * 4 + c / 64))
                    (String (b64char (c mod 64)) core)))), p.
    cbn [encode_bytes]. rewrite Henc. split; [reflexivity|].
    split; [|split; [exact Hp | exists (S q); cbn [String.length]; lia]].
    cbn [remove_equals].
    fold (is_pad (b64char (a / 4))).
    fold (is_pad (b64char ((a mod 4) * 16 + b / 16))).
    fold (is_pad (b64char ((b mod 16) * 4 + c / 64))).
    fold (is_pad (b64char (c mod 64))).
    destruct (@b64index_b64char (a / 4)) as (_ & ->); [lia|].
    destruct (@b64index_b64char ((a mod 4) * 16 + b / 16)) as (_ & ->);
      [lia|].
    destruct (@b64index_b64char ((b mod 16) * 4 + c / 64)) as (_ & ->);
      [lia|].
    destruct (@b64index_b64char (c mod 64)) as (_ & ->); [lia|].
    now rewrite Hcore.
Qed.

(** Stripping the padding of an encoding and putting it back changes
    nothing. *)
Lemma restore_padding_remove_equals (s : string) :
  restore_padding (remove_equals (encodeBase64 s)) = encodeBase64 s.
Proof.
  unfold encodeBase64.
  destruct (@encode_bytes_shape (map N_of_ascii (list_ascii_of_string s)))
    as (core & p & -> & Hcore & Hp & q & Hlen).
  { clear. induction s as [|c s IH]; simpl; constructor; auto.
    apply N_ascii_bounded. }
  rewrite remove_equals_app, remove_equals_pad, Hcore, append_empty_r.
  unfold restore_padding. do 2 f_equal. eapply pad_amount; eauto.
Qed.

End Base64.

Lemma bytes_of_string_bounded (s : string) :
  Forall (fun a => (a < 256)%N) (map N_of_ascii (list_ascii_of_string s)).
Proof.
  induction s as [|c s IH]; simpl; constructor; auto.
  apply N_ascii_bounded.
Qed.

(** Decoding what [encodeBase64] produced gives the text back. *)
Lemma decodeBase64_encodeBase64 (s : string) :
  decodeBase64 (encodeBase64 s) = Some s.
Proof.
  unfold decodeBase64, encodeBase64.
  rewrite decode_encode_bytes by apply bytes_of_string_bounded.
  f_equal. rewrite map_map.
  rewrite (map_ext _ (fun c => c)) by (intros c; apply ascii_N_embedding).
  rewrite map_id. apply string_of_list_ascii_of_string.
Qed.

(** The encoding of the URL loses nothing, whatever the text encoded. *)
Lemma stripped_base64_round_trip (s : string) :
  decodeBase64 (restore_padding (remove_equals (encodeBase64 s))) = Some s.
Proof.
  rewrite restore_padding_remove_equals. apply decodeBase64_encodeBase64.
Qed.

(** * The claims *)

(** When an awaited call of the tracker client rejects. *)
Definition throws (w : World) (call : Event) (e : exn) : Prop :=
  match call with
  | EGetStartedState teamId => getStartedState w teamId = Err e
  | EUpdateIssueState issueId stateId =>
      updateIssueState w issueId stateId = Err e
  | _ => False
  end.

(** C1: in every run of [startWorkOnIssue], [updateIssueState] is not called
    when no branch command reported success, and every call to it comes
    after a checkout or creation command that reported success. *)
Theorem update_only_after_branch_success
    (fuel : nat) (w : World) (issueId teamId : string) (gitSourceRef : jsopt) :
  let tr := snd (startWorkOnIssue fuel w issueId teamId gitSourceRef) in
  ((forall e, In e tr -> ~ succeeded_command w e) -> updates tr = [])
  /\ (forall pre i s post,
        tr = pre ++ EUpdateIssueState i s :: post ->
        exists cmd, In cmd pre /\ branch_command (preferGraphite_of w) cmd
                    /\ succeeded_command w cmd).
Proof.
  cbv zeta.
  destruct (startWorkOnIssue_shape fuel w issueId teamId gitSourceRef)
    as [(Hidle & _) | (pre0 & cmd & msg & Hpre & Hc & Hok & Hr)].
  - split.
    + intros _. eapply idle_no_update; eauto.
    + intros pre i s post Heq. exfalso.
      rewrite Heq in Hidle. apply Forall_app in Hidle.
      destruct Hidle as (_ & Hu). inversion Hu as [|? ? (Hf & _) _].
      discriminate.
  - rewrite Hr. cbn [snd]. split.
    + intros Hnone. exfalso. apply (Hnone cmd); [apply in_elt | exact Hok].
    + intros pre i s post Heq. exists cmd. split; [|split; assumption].
      apply (@update_after_command pre0 _ pre post cmd
               (EUpdateIssueState i s) Hpre
               (branch_command_is_command Hc) eq_refl Heq).
Qed.

Lemma update_only_after_branch_success_witness :
  updates (snd (startWorkOnIssue 0
                  (scenario ["eng-123"] "false" "switch" (Ok false)
                     (Ok started) (Ok tt)) "ENG-123" "ENG" None)) = []
  /\ exists cmd,
       In cmd [EFetchIssueDetails "ENG-123" true; EBranchExists "eng-123";
               ECommand "git" ["checkout"; "-b"; "eng-123"; "HEAD"] Piped;
               EConsoleLog "✓ Created and switched to branch 'eng-123'";
               EGetStartedState "ENG"]
       /\ branch_command false cmd
       /\ succeeded_command
            (scenario [] "false" "create" (Ok true) (Ok started) (Ok tt)) cmd.
Proof.
  split.
  - apply (update_only_after_branch_success 0
             (scenario ["eng-123"] "false" "switch" (Ok false)
                (Ok started) (Ok tt)) "ENG-123" "ENG" None).
    intros e He. vm_compute in He.
    repeat (destruct He as [<-|He]; [simpl; try tauto; discriminate|]).
    destruct He.
  - apply (proj2 (update_only_after_branch_success 0
             (scenario [] "false" "create" (Ok true) (Ok started) (Ok tt))
             "ENG-123" "ENG" None)
           _ "ENG-123" "state-started"
           [EConsoleLog "✓ Issue state updated to 'In Progress'"]).
    reflexivity.
Defined.

(** C2: when the issue's branch does not exist, [startWorkOnIssue] goes
    straight to the creation of that branch, with the source ref: it does
    not prompt, probes no other name, does not enter the suffix search
    (whatever the fuel, it never runs out of it) and runs the creation
    command as its only command. *)
Theorem absent_branch_created_directly
    (fuel : nat) (w : World) (issueId teamId : string) (gitSourceRef : jsopt)
    (b : string) :
  fetchIssueDetails w issueId true = Ok {| branchName := b |} ->
  branchExists w b = false ->
  let r := startWorkOnIssue fuel w issueId teamId gitSourceRef in
  let create := create_command b (preferGraphite_of w) gitSourceRef in
  (exists rest,
     snd r = EFetchIssueDetails issueId true :: EBranchExists b
               :: create :: rest)
  /\ prompts (snd r) = []
  /\ probes (snd r) = [EBranchExists b]
  /\ commands (snd r) = [create]
  /\ fst r <> OutOfFuel.
Proof.
  intros Hfetch Habsent. cbv zeta.
  destruct (@run_absent_events fuel w issueId teamId gitSourceRef b
              Hfetch Habsent) as (rest & Hrest & Hev).
  destruct (create_command_kind b (preferGraphite_of w) gitSourceRef)
    as (Hcmd & Hnb & Hnp).
  rewrite Hrest. repeat split.
  - now exists rest.
  - unfold prompts. simpl. rewrite Hnp.
    apply step_events_filter with (2 := Hev). intros e; destruct e; easy.
  - unfold probes. simpl. rewrite Hnb. f_equal.
    apply step_events_filter with (2 := Hev). intros e; destruct e; easy.
  - unfold commands. simpl. rewrite Hcmd. f_equal.
    apply step_events_filter with (2 := Hev). intros e; destruct e; easy.
  - rewrite (@run_absent fuel w issueId teamId gitSourceRef b Hfetch Habsent).
    cbn [fst].
    pose proof (createBranch_runs_only w b (preferGraphite_of w) gitSourceRef)
      as Hruns.
    destruct (@then_issue_state w _ _ _ issueId teamId Hruns)
      as [(_ & msg & ->) | (_ & [-> | (e & ->)])]; cbn [fst];
      try discriminate.
    destruct (issueStateStep_cases w issueId teamId)
      as [(e & _ & ->) | [(st & _ & _ & ->) | [(st & e & _ & _ & _ & ->)
         | (st & _ & _ & _ & ->)]]]; discriminate.
Qed.

Lemma absent_branch_created_directly_witness :
  exists rest,
    snd (startWorkOnIssue 0
           (scenario [] "true" "create" (Ok true) (Ok started) (Ok tt))
           "ENG-123" "ENG" (Some "main"%string))
    = EFetchIssueDetails "ENG-123" true :: EBranchExists "eng-123"
        :: ECommand "gt" ["create"; "eng-123"]%string Inherit :: rest.
Proof.
  apply (@absent_branch_created_directly 0
           (scenario [] "true" "create" (Ok true) (Ok started) (Ok tt))
           "ENG-123" "ENG" (Some "main"%string) "eng-123" eq_refl eq_refl).
Defined.

(** C3: when the issue's branch exists and the user selects "create", the
    names probed after the prompt are b-1, b-2, ..., b-n in this order, where
    n is the least suffix from 1 whose name is free, and the one command of
    the run creates b-n. *)
Theorem suffix_search_takes_least_free
    (fuel : nat) (w : World) (issueId teamId : string) (gitSourceRef : jsopt)
    (b : string) (n : N) :
  fetchIssueDetails w issueId true = Ok {| branchName := b |} ->
  branchExists w b = true ->
  Select_prompt w (prompt_message b) = "create"%string ->
  (1 <= n)%N ->
  (forall j, (1 <= j < n)%N -> branchExists w (suffixed b j) = true) ->
  branchExists w (suffixed b n) = false ->
  N.to_nat n <= fuel ->
  let tr := snd (startWorkOnIssue fuel w issueId teamId gitSourceRef) in
  let searched :=
    map (fun k => EBranchExists (suffixed b (N.of_nat k)))
        (seq 1 (N.to_nat n)) in
  let create := create_command (suffixed b n) (preferGraphite_of w)
                  gitSourceRef in
  (exists rest,
     tr = EFetchIssueDetails issueId true :: EBranchExists b
            :: EPrompt (prompt_message b) :: searched ++ create :: rest)
  /\ probes tr = EBranchExists b :: searched
  /\ commands tr = [create].
Proof.
  intros Hfetch Hpresent Hanswer Hn Htaken Hfree Hfuel. cbv zeta.
  set (k := pred (N.to_nat n)).
  assert (Hk : n = (1 + N.of_nat k)%N) by (subst k; lia).
  assert (Hsw : Select_prompt w (prompt_message b) <> "switch"%string)
    by (rewrite Hanswer; discriminate).
  assert (Htaken' : forall j, (1 <= j < 1 + N.of_nat k)%N ->
                              branchExists w (suffixed b j) = true)
    by (intros j Hj; apply Htaken; lia).
  assert (Hfree' : branchExists w (suffixed b (1 + N.of_nat k)) = false)
    by (rewrite <- Hk; exact Hfree).
  assert (Hfuel' : k < fuel) by (subst k; lia).
  rewrite (@run_suffixed fuel w issueId teamId gitSourceRef b k
             Hfetch Hpresent Hsw Htaken' Hfree' Hfuel').
  rewrite <- Hk. cbn [snd].
  replace (S k) with (N.to_nat n) by (subst k; lia).
  rewrite probe_events_seq. change (N.to_nat 1) with 1.
  set (searched := map _ (seq 1 (N.to_nat n))).
  pose proof (createBranch_runs_only w (suffixed b n) (preferGraphite_of w)
                gitSourceRef) as Hruns.
  destruct (@then_issue_state_events w _ _ _ issueId teamId Hruns)
    as (rest & Hrest & Hev).
  rewrite Hrest. clear Hrest.
  set (create := create_command (suffixed b n) (preferGraphite_of w)
                   gitSourceRef) in *.
  assert (Hc : is_command create = true /\ is_probe create = false)
    by (subst create; destruct (preferGraphite_of w); split; reflexivity).
  destruct Hc as (Hc & Hp).
  assert (Hs1 : filter is_probe searched = searched).
  { subst searched. clear. induction (seq 1 (N.to_nat n)) as [|x l IH];
      [reflexivity|]. simpl. now rewrite IH. }
  assert (Hs2 : filter is_command searched = []).
  { subst searched. clear. induction (seq 1 (N.to_nat n)) as [|x l IH];
      [reflexivity|]. simpl. exact IH. }
  repeat split.
  - now exists rest.
  - unfold probes. cbn [filter is_probe]. f_equal.
    rewrite filter_app, Hs1. cbn [filter]. rewrite Hp.
    rewrite (step_events_filter is_probe) with (2 := Hev);
      [now rewrite app_nil_r | intros e; destruct e; easy].
  - unfold commands. cbn [filter is_command].
    rewrite filter_app, Hs2, app_nil_l. cbn [filter]. rewrite Hc.
    f_equal.
    apply step_events_filter with (2 := Hev). intros e; destruct e; easy.
Qed.

Lemma suffix_search_takes_least_free_witness :
  probes (snd (startWorkOnIssue 3
                 (scenario ["eng-123"; "eng-123-1"; "eng-123-2"; "eng-123-4"]
                    "false" "create" (Ok true) (Ok started) (Ok tt))
                 "ENG-123" "ENG" None))
  = [EBranchExists "eng-123"; EBranchExists "eng-123-1";
     EBranchExists "eng-123-2"; EBranchExists "eng-123-3"]
  /\ commands (snd (startWorkOnIssue 3
                 (scenario ["eng-123"; "eng-123-1"; "eng-123-2"; "eng-123-4"]
                    "false" "create" (Ok true) (Ok started) (Ok tt))
                 "ENG-123" "ENG" None))
     = [ECommand "git" ["checkout"; "-b"; "eng-123-3"; "HEAD"]%string Piped].
Proof.
  pose proof (@suffix_search_takes_least_free 3
                (scenario ["eng-123"; "eng-123-1"; "eng-123-2"; "eng-123-4"]
                   "false" "create" (Ok true) (Ok started) (Ok tt))
                "ENG-123" "ENG" None "eng-123" 3
                eq_refl eq_refl eq_refl) as H.
  cbv zeta in H.
  assert (Hlow : forall j, (1 <= j < 3)%N ->
            branchExists
              (scenario ["eng-123"; "eng-123-1"; "eng-123-2"; "eng-123-4"]
                 "false" "create" (Ok true) (Ok started) (Ok tt))
              (suffixed "eng-123" j) = true).
  { intros j Hj.
    assert (Hj' : j = 1%N \/ j = 2%N) by lia.
    destruct Hj' as [-> | ->]; reflexivity. }
  destruct (H ltac:(lia) Hlow eq_refl (le_n 3)) as (_ & Hprobes & Hcommands).
  split; [exact Hprobes | exact Hcommands].
Defined.

(** C4: [findAvailableBranchName] terminates when some suffix from 1 on has
    a free name: from some amount of fuel on it returns, and always the same
    name.  When no suffix has a free name it never returns: whatever the
    fuel, the loop is still probing when the fuel is spent. *)
Theorem suffix_search_termination (w : World) (b : string) :
  ((exists n, (1 <= n)%N /\ branchExists w (suffixed b n) = false) ->
   exists enough name,
     forall fuel, enough <= fuel ->
       fst (findAvailableBranchName fuel w b) = Returned name)
  /\ (~ (exists n, (1 <= n)%N /\ branchExists w (suffixed b n) = false) ->
      forall fuel, fst (findAvailableBranchName fuel w b) = OutOfFuel).
Proof.
  unfold findAvailableBranchName. split.
  - intros (n & Hn & Hfree).
    destruct (loop_cases w b (N.to_nat n) 1)
      as [(k & Hk & Htaken & Hfreek & _) | (Htaken & _)].
    + exists (S k), (suffixed b (1 + N.of_nat k)). intros fuel Hfuel.
      rewrite (@loop_finds w b k fuel 1 Htaken Hfreek); [reflexivity | lia].
    + rewrite Htaken in Hfree by lia. discriminate.
  - intros Hnone fuel. rewrite loop_spins; [reflexivity|].
    intros j Hj. destruct (branchExists w (suffixed b j)) eqn:E;
      [reflexivity|]. exfalso. apply Hnone. now exists j.
Qed.

Lemma suffix_search_termination_witness :
  (exists enough name,
     forall fuel, enough <= fuel ->
       fst (findAvailableBranchName fuel
              (scenario ["eng-123"; "eng-123-1"] "false" "create" (Ok true)
                 (Ok started) (Ok tt)) "eng-123") = Returned name)
  /\ fst (findAvailableBranchName 1000
            {| getIssueIdentifier := fun providedId => providedId;
               getTeamKey := None;
               fetchIssueDetails := fun _ _ => Err "offline";
               getStartedState := fun _ => Err "offline";
               updateIssueState := fun _ _ => Err "offline";
               getOption := fun _ => None;
               branchExists := fun _ => true;
               Select_prompt := fun _ => "create"%string;
               Deno_Command := fun _ _ => Ok false;
               open := fun _ _ => Ok tt |} "eng-123") = OutOfFuel.
Proof.
  split.
  - apply (suffix_search_termination
             (scenario ["eng-123"; "eng-123-1"] "false" "create" (Ok true)
                (Ok started) (Ok tt)) "eng-123").
    exists 2%N. split; [lia | reflexivity].
  - apply suffix_search_termination.
    intros (n & _ & Hn). discriminate.
Defined.

(** C5: the filter put in the URL of the team view is the same string in
    every run, whatever the configuration and the options; it holds no [=];
    with the padding put back, decoding it gives the JSON text of the filter
    object, and parsing that text gives the filter object. *)
Theorem filter_encoding_round_trip :
  (forall w options url target,
     In (EOpen url target) (snd (openTeamAssigneeView w options)) ->
     url = ("https://linear.app/" ++ interp (getOption w "workspace")
            ++ "/team/" ++ interp (getTeamKey w) ++ "/active?filter="
            ++ "eyJhbmQiOlt7ImFzc2lnbmVlIjp7Im9yIjpbeyJpc01lIjp7ImVxIjp0cnVlfX1dfX1dfQ")%string)
  /\ ~ In "="%char (list_ascii_of_string encodedFilter)
  /\ decodeBase64 (restore_padding encodedFilter)
     = Some (JSON_stringify filterObj)
  /\ JSON_parse (JSON_stringify filterObj) = Some filterObj.
Proof.
  split; [|split; [apply remove_equals_no_pad
                  | split; [apply stripped_base64_round_trip | reflexivity]]].
  intros w options url target. unfold openTeamAssigneeView.
  change encodedFilter
    with "eyJhbmQiOlt7ImFzc2lnbmVlIjp7Im9yIjpbeyJpc01lIjp7ImVxIjp0cnVlfX1dfX1dfQ"%string.
  destruct (falsy (getTeamKey w)); [simpl; intuition discriminate|].
  destruct (falsy (getOption w "workspace")); [simpl; intuition discriminate|].
  cbv zeta. unfold when. unfold bind at 1 2. unfold ret.
  destruct (open w _ (open_target options)); simpl;
    intros [Heq | []]; now injection Heq as <- _.
Qed.

Lemma filter_encoding_round_trip_witness :
  exists url,
    In (EOpen url None)
       (snd (openTeamAssigneeView
               (scenario [] "false" "create" (Ok true) (Ok started) (Ok tt))
               {| app := None; web := None |}))
    /\ url = "https://linear.app/acme/team/ENG/active?filter=eyJhbmQiOlt7ImFzc2lnbmVlIjp7Im9yIjpbeyJpc01lIjp7ImVxIjp0cnVlfX1dfX1dfQ"%string.
Proof.
  exists "https://linear.app/acme/team/ENG/active?filter=eyJhbmQiOlt7ImFzc2lnbmVlIjp7Im9yIjpbeyJpc01lIjp7ImVxIjp0cnVlfX1dfX1dfQ"%string.
  assert (Hin : In (EOpen "https://linear.app/acme/team/ENG/active?filter=eyJhbmQiOlt7ImFzc2lnbmVlIjp7Im9yIjpbeyJpc01lIjp7ImVxIjp0cnVlfX1dfX1dfQ" None)
       (snd (openTeamAssigneeView
               (scenario [] "false" "create" (Ok true) (Ok started) (Ok tt))
               {| app := None; web := None |})))
    by (vm_compute; left; reflexivity).
  split; [exact Hin|].
  exact (proj1 filter_encoding_round_trip _ _ _ _ Hin).
Defined.

(** C6: when the workspace option is absent, each of the three page openers
    prints an error, then exits with status 1, and hands no URL to the
    opener. *)
Theorem missing_workspace_exits (w : World) :
  getOption w "workspace" = None ->
  (forall providedId options,
     let r := openIssuePage w providedId options in
     fst r = Exited 1 /\ opens (snd r) = []
     /\ exists pre msg, snd r = pre ++ [EConsoleError msg; EExit 1])
  /\ (forall projectId options,
        let r := openProjectPage w projectId options in
        fst r = Exited 1 /\ opens (snd r) = []
        /\ exists pre msg, snd r = pre ++ [EConsoleError msg; EExit 1])
  /\ (forall options,
        let r := openTeamAssigneeView w options in
        fst r = Exited 1 /\ opens (snd r) = []
        /\ exists pre msg, snd r = pre ++ [EConsoleError msg; EExit 1]).
Proof.
  intros Hws. repeat split.
  - unfold openIssuePage. rewrite Hws, bind_returned.
    destruct (falsy (getIssueIdentifier w providedId)); reflexivity.
  - unfold openIssuePage. rewrite Hws, bind_returned.
    destruct (falsy (getIssueIdentifier w providedId)); reflexivity.
  - unfold openIssuePage. rewrite Hws, bind_returned.
    destruct (falsy (getIssueIdentifier w providedId)).
    + now exists [EGetIssueIdentifier providedId],
        ["The current branch does not contain a valid linear issue id."%string].
    + now exists [EGetIssueIdentifier providedId], workspace_error.
  - unfold openProjectPage. rewrite Hws. reflexivity.
  - unfold openProjectPage. rewrite Hws. reflexivity.
  - unfold openProjectPage. rewrite Hws. now exists [], workspace_error.
  - unfold openTeamAssigneeView. rewrite Hws.
    destruct (falsy (getTeamKey w)); reflexivity.
  - unfold openTeamAssigneeView. rewrite Hws.
    destruct (falsy (getTeamKey w)); reflexivity.
  - unfold openTeamAssigneeView. rewrite Hws.
    destruct (falsy (getTeamKey w)).
    + now exists [],
        ["Could not determine team id from configuration or directory name."%string].
    + now exists [], workspace_error.
Qed.

Lemma missing_workspace_exits_witness :
  openIssuePage unconfigured (Some "ENG-123"%string)
    {| app := None; web := None |}
  = (Exited 1, [EGetIssueIdentifier (Some "ENG-123"%string);
                EConsoleError workspace_error; EExit 1])
  /\ fst (openProjectPage unconfigured "roadmap"
            {| app := Some true; web := None |}) = Exited 1
  /\ opens (snd (openTeamAssigneeView unconfigured
                   {| app := None; web := None |})) = [].
Proof.
  destruct (@missing_workspace_exits unconfigured eq_refl)
    as (_ & Hproject & Hteam).
  specialize (Hproject "roadmap"%string {| app := Some true; web := None |}).
  specialize (Hteam {| app := None; web := None |}).
  cbv zeta in Hproject, Hteam.
  split; [reflexivity|]. split.
  - apply Hproject.
  - apply Hteam.
Defined.

(** C7: once the branch command succeeded, [startWorkOnIssue] never throws;
    an exception of [getStartedState] or [updateIssueState] is logged as the
    last event and the function returns normally; no VCS command follows
    the branch command. *)
Theorem update_failure_caught
    (fuel : nat) (w : World) (issueId teamId : string) (gitSourceRef : jsopt)
    (pre post : trace) (cmd : Event) :
  let r := startWorkOnIssue fuel w issueId teamId gitSourceRef in
  snd r = pre ++ cmd :: post ->
  succeeded_command w cmd ->
  (forall e, fst r <> Thrown e)
  /\ commands post = []
  /\ (forall call e, In call post -> throws w call e ->
        fst r = Returned tt
        /\ exists mid, post = mid ++ [update_failure e]).
Proof.
  cbv zeta. intros Heq Hok.
  assert (Hcmd : is_command cmd = true) by (destruct cmd; easy).
  destruct (startWorkOnIssue_shape fuel w issueId teamId gitSourceRef)
    as [(Hidle & _) | (pre0 & cmd0 & msg & Hpre & Hc & Hok0 & Hr)].
  - exfalso. rewrite Heq in Hidle. apply Forall_app in Hidle.
    destruct Hidle as (_ & Hi). inversion Hi as [|? ? (_ & _ & Hn & _) _].
    auto.
  - rewrite Hr in Heq |- *. cbn [fst snd] in *.
    pose proof (issueStateStep_no_command w issueId teamId true) as Hnc.
    apply command_split_unique in Heq;
      [ | now apply silent_no_command | exact Hnc
        | exact (branch_command_is_command Hc) | exact Hcmd ].
    destruct Heq as (-> & -> & ->).
    destruct (issueStateStep_cases w issueId teamId)
      as [(e & Hst & ->) | [(st & Hst & Hid & ->)
         | [(st & e & Hst & Hid & Hup & ->) | (st & Hst & Hid & Hup & ->)]]];
      cbn [fst snd]; (split; [intros e'; discriminate|]);
      (split; [reflexivity|]); intros call e' Hin Hthrows;
      simpl in Hin;
      repeat (destruct Hin as [<-|Hin]; [|]); try destruct Hin;
      simpl in Hthrows; try contradiction;
      try (rewrite Hst in Hthrows); try (rewrite Hup in Hthrows);
      try discriminate.
    + injection Hthrows as <-. split; [reflexivity|].
      now exists [EConsoleLog msg; EGetStartedState teamId].
    + injection Hthrows as <-. split; [reflexivity|].
      now exists [EConsoleLog msg; EGetStartedState teamId;
                  EUpdateIssueState issueId (id st)].
Qed.

Lemma update_failure_caught_witness :
  fst (startWorkOnIssue 5
         (scenario ["eng-123"; "eng-123-1"; "eng-123-2"] "true" "create"
            (Ok true) (Err "offline") (Ok tt))
         "ENG-123" "ENG" (Some "main")) = Returned tt
  /\ exists mid,
       [EConsoleLog
          "✓ Created and switched to branch 'eng-123-3' using Graphite";
        EGetStartedState "ENG";
        EConsoleError ["Failed to update issue state:"; "offline"]]
       = mid ++ [update_failure "offline"].
Proof.
  pose proof (@update_failure_caught 5
           (scenario ["eng-123"; "eng-123-1"; "eng-123-2"] "true" "create"
              (Ok true) (Err "offline") (Ok tt))
           "ENG-123" "ENG" (Some "main")
           [EFetchIssueDetails "ENG-123" true; EBranchExists "eng-123";
            EPrompt "Branch eng-123 already exists. What would you like to do?";
            EBranchExists "eng-123-1"; EBranchExists "eng-123-2";
            EBranchExists "eng-123-3"]
           [EConsoleLog
              "✓ Created and switched to branch 'eng-123-3' using Graphite";
            EGetStartedState "ENG";
            EConsoleError ["Failed to update issue state:"; "offline"]]
           (ECommand "gt" ["create"; "eng-123-3"] Inherit)) as H.
  cbv zeta in H. destruct (H eq_refl eq_refl) as (_ & _ & Hcaught).
  apply (Hcaught (EGetStartedState "ENG") "offline").
  - simpl. tauto.
  - reflexivity.
Defined.

(** C8: with a workspace slug [ws] and an identifier [x] that resolve, the
    one URL [openIssuePage] opens is https://linear.app/ws/issue/x and the
    one URL [openProjectPage] opens is https://linear.app/ws/project/x. *)
Theorem page_urls (w : World) (ws x : string) :
  getOption w "workspace" = Some ws -> ws <> ""%string ->
  (forall providedId options,
     getIssueIdentifier w providedId = Some x -> x <> ""%string ->
     opens (snd (openIssuePage w providedId options))
     = [EOpen ("https://linear.app/" ++ ws ++ "/issue/" ++ x)
              (open_target options)])
  /\ (forall options,
        opens (snd (openProjectPage w x options))
        = [EOpen ("https://linear.app/" ++ ws ++ "/project/" ++ x)
                 (open_target options)]).
Proof.
  intros Hws Hne. apply String.eqb_neq in Hne. split.
  - intros providedId options Hid Hx. apply String.eqb_neq in Hx.
    unfold openIssuePage. rewrite Hws, Hid, bind_returned.
    unfold falsy, when. rewrite Hne, Hx. cbn [interp].
    destruct (open w _ (open_target options)); reflexivity.
  - intros options. unfold openProjectPage. rewrite Hws.
    unfold falsy, when. rewrite Hne. cbn [interp].
    destruct (open w _ (open_target options)); reflexivity.
Qed.

Lemma page_urls_witness :
  opens (snd (openIssuePage
                (scenario [] "false" "create" (Ok true) (Ok started) (Ok tt))
                (Some "ENG-123"%string) {| app := Some true; web := None |}))
  = [EOpen "https://linear.app/acme/issue/ENG-123" (Some "Linear"%string)].
Proof.
  destruct (@page_urls
              (scenario [] "false" "create" (Ok true) (Ok started) (Ok tt))
              "acme" "ENG-123" eq_refl) as (Hissue & _); [discriminate|].
  apply (Hissue (Some "ENG-123"%string) {| app := Some true; web := None |}
           eq_refl).
  discriminate.
Defined.

(** C9, as the code has it: when the issue's branch does not exist and
    [prefer_graphite] is not the string "true", the one command of the run
    is [git checkout -b <branchName> <gitSourceRef || "HEAD">]; when that
    command succeeds, [getStartedState] returns a state and [issueId] is
    not empty, [updateIssueState] is called once, with [issueId] and the
    id of that state.  In every run, [gt] is invoked only when
    [prefer_graphite] is the string "true". *)
Theorem plain_git_creation_then_update
    (fuel : nat) (w : World) (issueId teamId : string) (gitSourceRef : jsopt) :
  let r := startWorkOnIssue fuel w issueId teamId gitSourceRef in
  (forall b,
     fetchIssueDetails w issueId true = Ok {| branchName := b |} ->
     branchExists w b = false ->
     getOption w "prefer_graphite" <> Some "true"%string ->
     commands (snd r)
     = [ECommand "git"
          ["checkout"; "-b"; b; or_else gitSourceRef "HEAD"]%string Piped]
     /\ (Deno_Command w "git"
           ["checkout"; "-b"; b; or_else gitSourceRef "HEAD"]%string
         = Ok true ->
         forall st, getStartedState w teamId = Ok st ->
         issueId <> ""%string ->
         updates (snd r) = [EUpdateIssueState issueId (id st)]))
  /\ (forall args io,
        In (ECommand "gt" args io) (snd r) ->
        getOption w "prefer_graphite" = Some "true"%string).
Proof.
  cbv zeta. split.
  - intros b Hfetch Habsent Hpg.
    assert (Hplain : preferGraphite_of w = false).
    { destruct (preferGraphite_of w) eqn:E; [|reflexivity].
      apply preferGraphite_of_true in E. contradiction. }
    split.
    { destruct (@run_absent_events fuel w issueId teamId
                  gitSourceRef b Hfetch Habsent) as (rest & Hrest & Hev).
      rewrite Hrest, Hplain. unfold commands. simpl. f_equal.
      apply step_events_filter with (2 := Hev). intros e; destruct e; easy. }
    intros Hok st Hst Hid.
    rewrite (@run_absent fuel w issueId teamId gitSourceRef b Hfetch Habsent).
    cbn [snd]. rewrite Hplain.
    pose proof (createBranch_runs_only w b false gitSourceRef) as Hruns.
    destruct (@then_issue_state w _ _ _ issueId teamId Hruns)
      as [(_ & msg & ->) | (Hko & _)]; [|contradiction].
    destruct (issueStateStep_cases w issueId teamId)
      as [(e & Hst' & ->) | [(st' & Hst' & Hid' & ->)
         | [(st' & e & Hst' & _ & _ & ->) | (st' & Hst' & _ & _ & ->)]]];
      rewrite Hst in Hst'; try discriminate; try contradiction;
      injection Hst' as <-; reflexivity.
  - intros args io Hin. apply preferGraphite_of_true.
    destruct (@run_commands fuel w issueId teamId gitSourceRef _ Hin eq_refl)
      as [(b & Hb) | (b & g & Hb)];
      destruct (preferGraphite_of w); [reflexivity | discriminate
                                      | reflexivity | discriminate].
Qed.

Lemma plain_git_creation_then_update_witness :
  commands (snd (startWorkOnIssue 0
                   (scenario [] "false" "create" (Ok true) (Ok started)
                      (Ok tt)) "ENG-123" "ENG" None))
  = [ECommand "git" ["checkout"; "-b"; "eng-123"; "HEAD"]%string Piped]
  /\ updates (snd (startWorkOnIssue 0
                     (scenario [] "false" "create" (Ok true) (Ok started)
                        (Ok tt)) "ENG-123" "ENG" None))
     = [EUpdateIssueState "ENG-123" "state-started"]
  /\ getOption (scenario ["eng-123"] "true" "switch" (Ok false) (Ok started)
                  (Ok tt)) "prefer_graphite" = Some "true"%string.
Proof.
  pose proof (plain_git_creation_then_update 0
                (scenario [] "false" "create" (Ok true) (Ok started) (Ok tt))
                "ENG-123" "ENG" None) as H.
  cbv zeta in H. destruct H as (H & _).
  destruct (H "eng-123"%string eq_refl eq_refl) as (Hc & Hu);
    [discriminate|].
  split; [exact Hc|]. split.
  - apply (Hu eq_refl started eq_refl). discriminate.
  - pose proof (plain_git_creation_then_update 0
                  (scenario ["eng-123"] "true" "switch" (Ok false)
                     (Ok started) (Ok tt))
                  "ENG-123" "ENG" None) as H'.
    cbv zeta in H'. destruct H' as (_ & H').
    apply (H' ["checkout"; "eng-123"]%string Inherit).
    simpl. tauto.
Defined.

(** C9 as the claim words it fails: the branch is absent, the backend is
    plain git and [git checkout -b] succeeds, yet [updateIssueState] is not
    called, once because [getStartedState] throws, once because [issueId]
    is empty. *)
Lemma update_after_plain_creation_counterexample :
  Deno_Command
    (scenario [] "false" "create" (Ok true) (Err "offline") (Ok tt))
    "git" ["checkout"; "-b"; "eng-123"; "HEAD"]%string = Ok true
  /\ startWorkOnIssue 0
       (scenario [] "false" "create" (Ok true) (Err "offline") (Ok tt))
       "ENG-123" "ENG" None
     = (Returned tt,
        [EFetchIssueDetails "ENG-123" true; EBranchExists "eng-123";
         ECommand "git" ["checkout"; "-b"; "eng-123"; "HEAD"]%string Piped;
         EConsoleLog "✓ Created and switched to branch 'eng-123'";
         EGetStartedState "ENG";
         EConsoleError ["Failed to update issue state:"; "offline"]%string])
  /\ startWorkOnIssue 0
       (scenario [] "false" "create" (Ok true) (Ok started) (Ok tt))
       "" "ENG" None
     = (Exited 1,
        [EFetchIssueDetails "" true; EBranchExists "eng-123";
         ECommand "git" ["checkout"; "-b"; "eng-123"; "HEAD"]%string Piped;
         EConsoleLog "✓ Created and switched to branch 'eng-123'";
         EGetStartedState "ENG";
         EConsoleError ["No issue ID resolved"]%string; EExit 1]).
Proof. repeat split. Qed.

(** C10, as the code has it: with a non-empty [issueId], [startWorkOnIssue]
    never terminates the process.  With an empty [issueId] and a successful
    branch command, the process exits with status 1, without any issue-state
    update, when [getStartedState] returns a state; when [getStartedState]
    throws, the error is caught and logged as the last event of the run
    and [startWorkOnIssue] returns normally without exiting, again without
    any issue-state update. *)
Theorem exit_only_without_issue_id
    (fuel : nat) (w : World) (issueId teamId : string) (gitSourceRef : jsopt) :
  let r := startWorkOnIssue fuel w issueId teamId gitSourceRef in
  (issueId <> "" -> (forall code, fst r <> Exited code) /\ exits (snd r) = [])
  /\ (issueId = "" ->
      (exists cmd, In cmd (snd r) /\ succeeded_command w cmd) ->
      updates (snd r) = []
      /\ (forall st, getStartedState w teamId = Ok st ->
            fst r = Exited 1
            /\ exists pre,
                 snd r = pre ++ [EConsoleError ["No issue ID resolved"];
                                 EExit 1])
      /\ (forall e, getStartedState w teamId = Err e ->
            fst r = Returned tt /\ exits (snd r) = []
            /\ exists pre,
                 snd r = pre ++ [EConsoleError
                                   ["Failed to update issue state:"; e]])).
Proof.
  cbv zeta.
  destruct (startWorkOnIssue_shape fuel w issueId teamId gitSourceRef)
    as [(Hidle & Hx) | (pre0 & cmd0 & msg & Hpre & Hc & Hok0 & Hr)].
  - split.
    + intros _. split; [exact Hx | eapply idle_no_exit; eauto].
    + intros _ (cmd & Hin & Hok). exfalso.
      rewrite Forall_forall in Hidle.
      destruct (Hidle cmd Hin) as (_ & _ & Hn & _).
      auto.
  - rewrite Hr. cbn [fst snd].
    assert (Hsplit : forall (f : Event -> bool) (tail : trace),
              f cmd0 = false -> f (EConsoleLog msg) = false ->
              filter f pre0 = [] ->
              filter f (pre0 ++ cmd0 :: EConsoleLog msg :: tail)
              = filter f tail).
    { intros f tail H1 H2 H3. rewrite filter_app, H3. simpl.
      now rewrite H1, H2. }
    assert (Hcu : is_update cmd0 = false /\ is_exit cmd0 = false).
    { pose proof (branch_command_is_command Hc). destruct cmd0; easy. }
    destruct Hcu as (Hcu & Hcx).
    unfold updates, exits.
    rewrite !Hsplit; auto;
      try (now apply silent_no_update); try (now apply silent_no_exit).
    destruct (issueStateStep_cases w issueId teamId)
      as [(e & Hst & ->) | [(st & Hst & Hid & ->)
         | [(st & e & Hst & Hid & Hup & ->) | (st & Hst & Hid & Hup & ->)]]];
      cbn [fst snd]; (split; [intros Hne | intros Hempty _]);
      try contradiction;
      try (split; [intros code; discriminate | reflexivity]).
    + split; [reflexivity|]. split.
      * intros st Hst'. rewrite Hst in Hst'. discriminate.
      * intros e' He'. rewrite Hst in He'. injection He' as <-.
        split; [reflexivity|]. split; [reflexivity|].
        exists (pre0 ++ [cmd0; EConsoleLog msg; EGetStartedState teamId]).
        rewrite <- app_assoc. reflexivity.
    + split; [reflexivity|]. split.
      * intros st' _. split; [reflexivity|].
        exists (pre0 ++ [cmd0; EConsoleLog msg; EGetStartedState teamId]).
        rewrite <- app_assoc. reflexivity.
      * intros e' He'. rewrite Hst in He'. discriminate.
Qed.

Lemma exit_only_without_issue_id_witness :
  exits (snd (startWorkOnIssue 0
                (scenario [] "false" "create" (Ok true) (Ok started) (Ok tt))
                "ENG-123" "ENG" None)) = []
  /\ fst (startWorkOnIssue 0
            (scenario [] "false" "create" (Ok true) (Ok started) (Ok tt))
            "" "ENG" None) = Exited 1
  /\ (fst (startWorkOnIssue 0
             (scenario [] "false" "create" (Ok true) (Err "offline") (Ok tt))
             "" "ENG" None) = Returned tt
      /\ exists pre,
           snd (startWorkOnIssue 0
                  (scenario [] "false" "create" (Ok true) (Err "offline")
                     (Ok tt)) "" "ENG" None)
           = pre ++ [EConsoleError
                       ["Failed to update issue state:"; "offline"]]).
Proof.
  split; [|split].
  - apply (exit_only_without_issue_id 0
             (scenario [] "false" "create" (Ok true) (Ok started) (Ok tt))
             "ENG-123" "ENG" None).
    discriminate.
  - pose proof (exit_only_without_issue_id 0
             (scenario [] "false" "create" (Ok true) (Ok started) (Ok tt))
             "" "ENG" None) as H.
    cbv zeta in H. destruct H as (_ & H).
    destruct (H eq_refl) as (_ & Hexit & _).
    + exists (ECommand "git" ["checkout"; "-b"; "eng-123"; "HEAD"] Piped).
      split; [simpl; tauto | reflexivity].
    + apply (Hexit started). reflexivity.
  - pose proof (exit_only_without_issue_id 0
             (scenario [] "false" "create" (Ok true) (Err "offline") (Ok tt))
             "" "ENG" None) as H.
    cbv zeta in H. destruct H as (_ & H).
    destruct (H eq_refl) as (_ & _ & Hcaught).
    + exists (ECommand "git" ["checkout"; "-b"; "eng-123"; "HEAD"] Piped).
      split; [simpl; tauto | reflexivity].
    + destruct (Hcaught "offline"%string eq_refl) as (Hret & _ & Hlog).
      split; [exact Hret | exact Hlog].
Defined.

(** C10 as the claim words it fails: an empty [issueId], a branch command
    that succeeded, and no exit, because [getStartedState] threw before the
    test of [issueId] was reached. *)
Lemma exit_with_empty_issue_id_counterexample :
  Deno_Command
    (scenario [] "false" "create" (Ok true) (Err "offline") (Ok tt))
    "git" ["checkout"; "-b"; "eng-123"; "HEAD"] = Ok true
  /\ startWorkOnIssue 0
       (scenario [] "false" "create" (Ok true) (Err "offline") (Ok tt))
       "" "ENG" None
     = (Returned tt,
        [EFetchIssueDetails "" true; EBranchExists "eng-123";
         ECommand "git" ["checkout"; "-b"; "eng-123"; "HEAD"] Piped;
         EConsoleLog "✓ Created and switched to branch 'eng-123'";
         EGetStartedState "ENG";
         EConsoleError ["Failed to update issue state:"; "offline"]]).
Proof. split; reflexivity. Qed.

(** * Further properties *)

(** ** Every run, path by path *)

(** What the subprocess of a command event reported. *)
Definition command_result (w : World) (e : Event) : option (result bool) :=
  match e with
  | ECommand cmd args _ => Some (Deno_Command w cmd args)
  | _ => None
  end.

(** A computation of the adapter, by the result of its command. *)
Definition vcs_run (w : World) (cmd : Event) (v : M bool) : Prop :=
  match command_result w cmd with
  | Some (Ok true) => exists msg, v = (Returned true, [cmd; EConsoleLog msg])
  | Some (Ok false) => v = (Returned false, [cmd])
  | Some (Err e) => v = (Thrown e, [cmd])
  | None => False
  end.

Lemma checkoutBranch_vcs_run w b pg :
  vcs_run w (checkout_command b pg) (checkoutBranch w b pg).
Proof.
  unfold vcs_run, checkoutBranch, checkout_command, run_command.
  destruct pg; simpl;
    match goal with |- context [Deno_Command w ?c ?a] =>
      destruct (Deno_Command w c a) as [[|]|e] end; simpl;
    solve [eexists; reflexivity | reflexivity].
Qed.

Lemma createBranch_vcs_run w b pg g :
  vcs_run w (create_command b pg g) (createBranch w b pg g).
Proof.
  unfold vcs_run, createBranch, create_command, run_command.
  destruct pg; simpl;
    match goal with |- context [Deno_Command w ?c ?a] =>
      destruct (Deno_Command w c a) as [[|]|e] end; simpl;
    solve [eexists; reflexivity | reflexivity].
Qed.

(** How the branch name was resolved: the events before the command, and
    the command. *)
Definition resolved (fuel : nat) (w : World) (b : string) (g : jsopt)
    (pre : trace) (cmd : Event) : Prop :=
  (branchExists w b = false /\ pre = [EBranchExists b]
   /\ cmd = create_command b (preferGraphite_of w) g)
  \/ (branchExists w b = true
      /\ Select_prompt w (prompt_message b) = "switch"%string
      /\ pre = [EBranchExists b; EPrompt (prompt_message b)]
      /\ cmd = checkout_command b (preferGraphite_of w))
  \/ (branchExists w b = true
      /\ Select_prompt w (prompt_message b) <> "switch"%string
      /\ exists k, k < fuel
           /\ (forall j, (1 <= j < 1 + N.of_nat k)%N ->
                         branchExists w (suffixed b j) = true)
           /\ branchExists w (suffixed b (1 + N.of_nat k)) = false
           /\ pre = EBranchExists b :: EPrompt (prompt_message b)
                      :: probe_events b (suffixes_from 1 (S k))
           /\ cmd = create_command (suffixed b (1 + N.of_nat k))
                      (preferGraphite_of w) g).

(** The search that the fuel does not cover. *)
Definition searching (fuel : nat) (w : World) (b : string) (pre : trace)
    : Prop :=
  branchExists w b = true
  /\ Select_prompt w (prompt_message b) <> "switch"%string
  /\ (forall j, (1 <= j < 1 + N.of_nat fuel)%N ->
                branchExists w (suffixed b j) = true)
  /\ pre = EBranchExists b :: EPrompt (prompt_message b)
             :: probe_events b (suffixes_from 1 fuel).

Lemma branchOperation_paths fuel w b g :
  let r := branchOperation fuel w b (preferGraphite_of w) g in
  (exists pre, searching fuel w b pre /\ r = (OutOfFuel, pre))
  \/ (exists pre cmd (v : M bool),
        resolved fuel w b g pre cmd /\ vcs_run w cmd v
        /\ r = (fst v, pre ++ snd v)).
Proof.
  cbv zeta. unfold branchOperation, probe. rewrite bind_returned.
  destruct (branchExists w b) eqn:Hb.
  - rewrite bind_returned. fold (prompt_message b). cbn [fst snd].
    destruct (String.eqb_spec (Select_prompt w (prompt_message b)) "switch")
      as [Hsw | Hsw].
    + right. exists [EBranchExists b; EPrompt (prompt_message b)],
        (checkout_command b (preferGraphite_of w)),
        (checkoutBranch w b (preferGraphite_of w)).
      split; [right; left; auto|].
      split; [apply checkoutBranch_vcs_run | reflexivity].
    + unfold findAvailableBranchName.
      destruct (loop_cases w b fuel 1)
        as [(k & Hk & Htaken & Hfree & ->) | (Htaken & ->)].
      * right. rewrite bind_returned. cbn [fst snd].
        exists (EBranchExists b :: EPrompt (prompt_message b)
                  :: probe_events b (suffixes_from 1 (S k))),
          (create_command (suffixed b (1 + N.of_nat k))
             (preferGraphite_of w) g),
          (createBranch w (suffixed b (1 + N.of_nat k))
             (preferGraphite_of w) g).
        split; [right; right; repeat split; auto; exists k; auto|].
        split; [apply createBranch_vcs_run|].
        reflexivity.
      * left. eexists. split; [repeat split; eauto|].
        reflexivity.
  - right. exists [EBranchExists b],
      (create_command b (preferGraphite_of w) g),
      (createBranch w b (preferGraphite_of w) g).
    split; [left; auto|]. split; [apply createBranch_vcs_run | reflexivity].
Qed.

(** The forms a run of [startWorkOnIssue] takes. *)
Definition fetch_failed (w : World) (issueId : string) (r : M unit) : Prop :=
  exists e, fetchIssueDetails w issueId true = Err e
            /\ r = (Thrown e, [EFetchIssueDetails issueId true]).

Definition still_searching (fuel : nat) (w : World) (issueId : string)
    (r : M unit) : Prop :=
  exists b pre,
    fetchIssueDetails w issueId true = Ok {| branchName := b |}
    /\ searching fuel w b pre
    /\ r = (OutOfFuel, EFetchIssueDetails issueId true :: pre).

Definition command_ran (fuel : nat) (w : World) (issueId teamId : string)
    (g : jsopt) (r : M unit) : Prop :=
  exists b pre cmd,
    fetchIssueDetails w issueId true = Ok {| branchName := b |}
    /\ resolved fuel w b g pre cmd
    /\ ((exists e, command_result w cmd = Some (Err e)
           /\ r = (Thrown e, EFetchIssueDetails issueId true :: pre ++ [cmd]))
        \/ (command_result w cmd = Some (Ok false)
            /\ r = (Returned tt,
                    EFetchIssueDetails issueId true
                      :: pre ++ [cmd; failure_line]))
        \/ (command_result w cmd = Some (Ok true)
            /\ exists msg,
                 r = (fst (issueStateStep w issueId teamId true),
                      EFetchIssueDetails issueId true
                        :: pre ++ cmd :: EConsoleLog msg
                        :: snd (issueStateStep w issueId teamId true)))).

Lemma run_forms fuel w issueId teamId g :
  let r := startWorkOnIssue fuel w issueId teamId g in
  fetch_failed w issueId r \/ still_searching fuel w issueId r
  \/ command_ran fuel w issueId teamId g r.
Proof.
  cbv zeta. rewrite startWorkOnIssue_halves. unfold await.
  destruct (fetchIssueDetails w issueId true) as [[b]|e] eqn:Hfetch.
  - right. rewrite bind_returned. cbn [branchName].
    destruct (branchOperation_paths fuel w b g)
      as [(pre & Hs & ->) | (pre & cmd & v & Hres & Hv & ->)].
    + left. exists b, pre. auto.
    + right. exists b, pre, cmd. split; [exact Hfetch|]. split; [exact Hres|].
      unfold vcs_run in Hv.
      destruct (command_result w cmd) as [[[|]|e]|]; [| | |contradiction].
      * right; right. split; [reflexivity|]. destruct Hv as (msg & ->).
        exists msg. cbn [fst snd]. rewrite bind_returned. cbn [fst snd app].
        f_equal. f_equal. rewrite <- app_assoc. reflexivity.
      * right; left. split; [reflexivity|]. subst v.
        cbn [fst snd]. rewrite bind_returned.
        unfold issueStateStep, console_log. cbn [fst snd app].
        f_equal. f_equal. rewrite <- app_assoc. reflexivity.
      * left. exists e. split; [reflexivity|]. subst v. reflexivity.
  - left. exists e. auto.
Qed.

(** The events before the command: the probe of the branch name, then at
    most one prompt, then probes of suffixed names. *)
Lemma resolved_shape fuel w b g pre cmd :
  resolved fuel w b g pre cmd ->
  exists (asked : list Event) (ns : list N) c args io,
    pre = EBranchExists b :: asked ++ probe_events b ns
    /\ (asked = [] \/ asked = [EPrompt (prompt_message b)])
    /\ cmd = ECommand c args io
    /\ branch_command (preferGraphite_of w) cmd.
Proof.
  intros [(_ & -> & ->) | [(_ & _ & -> & ->) | (_ & _ & k & _ & _ & _ & -> & ->)]].
  - exists [], []. destruct (preferGraphite_of w);
      do 3 eexists; (split; [reflexivity|]); (split; [now left|]);
      (split; [reflexivity|]); right; exists b, g; reflexivity.
  - exists [EPrompt (prompt_message b)], [].
    destruct (preferGraphite_of w);
      do 3 eexists; (split; [reflexivity|]); (split; [now right|]);
      (split; [reflexivity|]); left; exists b; reflexivity.
  - exists [EPrompt (prompt_message b)], (suffixes_from 1 (S k)).
    destruct (preferGraphite_of w);
      do 3 eexists; (split; [reflexivity|]); (split; [now right|]);
      (split; [reflexivity|]); right;
      exists (suffixed b (1 + N.of_nat k)), g; reflexivity.
Qed.

Lemma probe_events_filter (f : Event -> bool) b ns :
  (forall n, f (EBranchExists n) = false) ->
  filter f (probe_events b ns) = [].
Proof.
  intros Hf. induction ns as [|n ns IH]; [reflexivity|].
  simpl. now rewrite Hf.
Qed.

Lemma prefix_filter (f : Event -> bool) b (asked : trace) ns :
  (forall n, f (EBranchExists n) = false) ->
  filter f (EBranchExists b :: asked ++ probe_events b ns) = filter f asked.
Proof.
  intros Hf. cbn [filter]. rewrite Hf, filter_app, probe_events_filter by auto.
  apply app_nil_r.
Qed.

(** X10: a run of [startWorkOnIssue] issues at most one VCS command, asks
    at most one question, makes at most one issue-state update and calls
    [Deno.exit] at most once. *)
Theorem at_most_one_of_each
    (fuel : nat) (w : World) (issueId teamId : string) (gitSourceRef : jsopt) :
  let tr := snd (startWorkOnIssue fuel w issueId teamId gitSourceRef) in
  List.length (commands tr) <= 1 /\ List.length (prompts tr) <= 1
  /\ List.length (updates tr) <= 1 /\ List.length (exits tr) <= 1.
Proof.
  cbv zeta.
  destruct (run_forms fuel w issueId teamId gitSourceRef)
    as [(e & _ & ->) | [(b & pre & _ & (_ & _ & _ & ->) & ->)
       | (b & pre & cmd & _ & Hres & Hrun)]].
  - cbn. lia.
  - unfold commands, prompts, updates, exits. cbn [snd filter is_command
      is_prompt is_update is_exit].
    rewrite !probe_events_filter by reflexivity. cbn. lia.
  - destruct (resolved_shape Hres)
      as (asked & ns & c & args & io & -> & Hasked & -> & _).
    assert (Hpre : forall (f : Event -> bool) tail,
              (forall n, f (EBranchExists n) = false) ->
              f (EFetchIssueDetails issueId true) = false ->
              filter f (EFetchIssueDetails issueId true
                          :: (EBranchExists b :: asked ++ probe_events b ns)
                          ++ tail)
              = filter f asked ++ filter f tail).
    { intros f tail Hf Hfetch.
      change (EFetchIssueDetails issueId true
                :: (EBranchExists b :: asked ++ probe_events b ns) ++ tail)
        with ([EFetchIssueDetails issueId true]
                ++ (EBranchExists b :: asked ++ probe_events b ns) ++ tail).
      rewrite !filter_app, prefix_filter by exact Hf.
      cbn [filter]. now rewrite Hfetch. }
    unfold commands, prompts, updates, exits.
    destruct Hrun as [(e & _ & ->) | [(_ & ->) | (_ & msg & ->)]];
      cbn [snd]; rewrite !Hpre by reflexivity;
      try (destruct (issueStateStep_cases w issueId teamId)
             as [(e & _ & ->) | [(st & _ & _ & ->)
                | [(st & e & _ & _ & _ & ->) | (st & _ & _ & _ & ->)]]]);
      destruct Hasked as [-> | ->]; cbn; lia.
Qed.

Lemma resolved_prefix_silent fuel w b g pre cmd :
  resolved fuel w b g pre cmd -> Forall (fun e => silent e = true) pre.
Proof.
  intros H. destruct (resolved_shape H)
    as (asked & ns & c & args & io & -> & Hasked & _ & _).
  constructor; [reflexivity|]. apply Forall_app. split.
  - destruct Hasked as [-> | ->]; repeat constructor.
  - apply probe_events_silent.
Qed.

Lemma silent_not_command (e : Event) : silent e = true -> is_command e = false.
Proof. destruct e; simpl; easy. Qed.

Lemma step_not_command w issueId teamId (x : Event) :
  In x (snd (issueStateStep w issueId teamId true)) -> is_command x = false.
Proof.
  intros Hin. pose proof (issueStateStep_events w issueId teamId true) as H.
  rewrite Forall_forall in H. specialize (H x Hin). destruct x; easy.
Qed.

(** A command found in the trace of a run is the command of that run. *)
Lemma run_of_command fuel w issueId teamId g (x : Event) :
  let r := startWorkOnIssue fuel w issueId teamId g in
  In x (snd r) -> is_command x = true ->
  exists b pre,
    fetchIssueDetails w issueId true = Ok {| branchName := b |}
    /\ resolved fuel w b g pre x
    /\ ((exists e, command_result w x = Some (Err e)
           /\ r = (Thrown e, EFetchIssueDetails issueId true :: pre ++ [x]))
        \/ (command_result w x = Some (Ok false)
            /\ r = (Returned tt,
                    EFetchIssueDetails issueId true
                      :: pre ++ [x; failure_line]))
        \/ (command_result w x = Some (Ok true)
            /\ exists msg,
                 r = (fst (issueStateStep w issueId teamId true),
                      EFetchIssueDetails issueId true
                        :: pre ++ x :: EConsoleLog msg
                        :: snd (issueStateStep w issueId teamId true)))).
Proof.
  cbv zeta. intros Hin Hx.
  destruct (run_forms fuel w issueId teamId g)
    as [(e & _ & Hr) | [(b & pre & _ & (_ & _ & _ & ->) & Hr)
       | (b & pre & cmd & Hfetch & Hres & Hrun)]].
  - exfalso. rewrite Hr in Hin. destruct Hin as [<- | []]. discriminate.
  - exfalso. rewrite Hr in Hin. cbn [snd] in Hin.
    destruct Hin as [<- | [<- | [<- | Hin]]]; try discriminate.
    pose proof (probe_events_silent b (suffixes_from 1 fuel)) as Hs.
    rewrite Forall_forall in Hs. apply Hs in Hin.
    apply silent_not_command in Hin. congruence.
  - assert (Hpre : forall y, In y pre -> is_command y = false).
    { intros y Hy. pose proof (resolved_prefix_silent Hres) as Hs.
      rewrite Forall_forall in Hs. now apply silent_not_command, Hs. }
    assert (Hxc : x = cmd).
    { destruct Hrun as [(e & _ & Hr) | [(_ & Hr) | (_ & msg & Hr)]];
        rewrite Hr in Hin; cbn [snd] in Hin;
        (destruct Hin as [<- | Hin]; [discriminate|]);
        apply in_app_or in Hin;
        (destruct Hin as [Hin | Hin];
         [apply Hpre in Hin; congruence|]).
      - destruct Hin as [<- | []]. reflexivity.
      - destruct Hin as [<- | [<- | []]]; [reflexivity | discriminate].
      - destruct Hin as [<- | [<- | Hin]]; [reflexivity | discriminate |].
        apply step_not_command in Hin. congruence. }
    subst x. exists b, pre. auto.
Qed.

(** X2: when the branch command reports failure, [startWorkOnIssue] returns
    normally right after logging that the issue state was not updated; the
    tracker is asked neither for the started state nor for an update. *)
Theorem failed_command_leaves_issue_alone
    (fuel : nat) (w : World) (issueId teamId : string) (gitSourceRef : jsopt)
    (cmd : Event) :
  let r := startWorkOnIssue fuel w issueId teamId gitSourceRef in
  In cmd (snd r) ->
  command_result w cmd = Some (Ok false) ->
  fst r = Returned tt
  /\ (exists pre, snd r = pre ++ [cmd; failure_line])
  /\ updates (snd r) = []
  /\ (forall team, ~ In (EGetStartedState team) (snd r)).
Proof.
  cbv zeta. intros Hin Hres.
  assert (Hc : is_command cmd = true) by (destruct cmd; easy).
  destruct (run_of_command fuel w issueId teamId gitSourceRef cmd Hin Hc)
    as (b & pre & _ & Hpre & [(e & He & _) | [(_ & Hr) | (Hok & _)]]);
    try congruence.
  rewrite Hr. cbn [fst snd]. split; [reflexivity|].
  pose proof (resolved_prefix_silent Hpre) as Hs.
  split; [|split].
  - exists (EFetchIssueDetails issueId true :: pre). reflexivity.
  - unfold updates. cbn [filter is_update]. rewrite filter_app.
    fold (updates pre). rewrite (silent_no_update Hs).
    destruct cmd; try discriminate. reflexivity.
  - intros team [Heq | Hin']; [discriminate|].
    apply in_app_or in Hin'. destruct Hin' as [Hin' | Hin'].
    + destruct (resolved_shape Hpre)
        as (asked & ns & c & args & io & -> & Hasked & _ & _).
      destruct Hin' as [Heq | H]; [discriminate|]. apply in_app_or in H.
      destruct H as [H | H].
      * destruct Hasked as [-> | ->]; [destruct H|].
        destruct H as [Heq | []]. discriminate.
      * apply in_map_iff in H. destruct H as (n & Heq & _). discriminate.
    + destruct Hin' as [Heq | [Heq | []]]; [|discriminate].
      rewrite Heq in Hc. discriminate.
Qed.

Lemma failed_command_leaves_issue_alone_witness :
  fst (startWorkOnIssue 0
         (scenario ["eng-123"] "false" "switch" (Ok false) (Ok started)
            (Ok tt)) "ENG-123" "ENG" None) = Returned tt
  /\ updates (snd (startWorkOnIssue 0
                     (scenario ["eng-123"] "false" "switch" (Ok false)
                        (Ok started) (Ok tt)) "ENG-123" "ENG" None)) = [].
Proof.
  pose proof (@failed_command_leaves_issue_alone 0
                (scenario ["eng-123"] "false" "switch" (Ok false)
                   (Ok started) (Ok tt)) "ENG-123" "ENG" None
                (ECommand "git" ["checkout"; "eng-123"]%string Piped)) as H.
  cbv zeta in H.
  destruct H as (Hret & _ & Hupd & _);
    [simpl; tauto | reflexivity | split; assumption].
Defined.

Lemma issueStateStep_returns_or_exits w issueId teamId :
  fst (issueStateStep w issueId teamId true) = Returned tt
  \/ fst (issueStateStep w issueId teamId true) = Exited 1.
Proof.
  destruct (issueStateStep_cases w issueId teamId)
    as [(x & _ & ->) | [(st & _ & _ & ->) | [(st & x & _ & _ & _ & ->)
       | (st & _ & _ & _ & ->)]]]; auto.
Qed.

(** X3: when [fetchIssueDetails] rejects, [startWorkOnIssue] throws that
    error after the fetch alone.  When the branch command cannot be spawned,
    it throws that error right after the command, with no issue-state
    update.  Once a command has been issued, the spawn error of that
    command is the only error it throws: the errors of the issue-state step
    are caught. *)
Theorem fetch_and_spawn_errors_propagate
    (fuel : nat) (w : World) (issueId teamId : string) (gitSourceRef : jsopt)
    (e : exn) :
  let r := startWorkOnIssue fuel w issueId teamId gitSourceRef in
  (fetchIssueDetails w issueId true = Err e ->
   r = (Thrown e, [EFetchIssueDetails issueId true]))
  /\ (forall cmd,
        In cmd (snd r) -> command_result w cmd = Some (Err e) ->
        fst r = Thrown e
        /\ (exists pre, snd r = pre ++ [cmd])
        /\ updates (snd r) = [])
  /\ (forall cmd,
        In cmd (snd r) -> is_command cmd = true -> fst r = Thrown e ->
        command_result w cmd = Some (Err e)).
Proof.
  cbv zeta. split; [|split].
  - intros Hfetch.
    destruct (run_forms fuel w issueId teamId gitSourceRef)
      as [(e' & Hfetch' & ->) | [(b & pre & Hfetch' & _)
         | (b & pre & cmd & Hfetch' & _)]]; congruence.
  - intros cmd Hin He.
    assert (Hc : is_command cmd = true) by (destruct cmd; easy).
    destruct (run_of_command fuel w issueId teamId gitSourceRef cmd Hin Hc)
      as (b & pre & _ & Hres & [(e' & He' & ->) | [(Hko & _) | (Hok & _)]]);
      try congruence.
    rewrite He in He'. injection He' as <-. cbn [fst snd].
    split; [reflexivity|]. split.
    + exists (EFetchIssueDetails issueId true :: pre). reflexivity.
    + unfold updates. cbn [filter is_update]. rewrite filter_app.
      fold (updates pre).
      rewrite (silent_no_update (resolved_prefix_silent Hres)).
      destruct cmd; try discriminate. reflexivity.
  - intros cmd Hin Hc Hthrown.
    destruct (run_of_command fuel w issueId teamId gitSourceRef cmd Hin Hc)
      as (b & pre & _ & _ & [(e' & He' & Hr) | [(_ & Hr) | (_ & msg & Hr)]]);
      rewrite Hr in Hthrown; cbn [fst] in Hthrown.
    + injection Hthrown as <-. exact He'.
    + discriminate.
    + destruct (issueStateStep_returns_or_exits w issueId teamId)
        as [Hs | Hs]; rewrite Hs in Hthrown; discriminate.
Qed.

Lemma fetch_and_spawn_errors_propagate_witness :
  fst (startWorkOnIssue 0
         (scenario [] "true" "create" (Err "gt: command not found")
            (Ok started) (Ok tt)) "ENG-123" "ENG" None)
  = Thrown "gt: command not found"
  /\ updates (snd (startWorkOnIssue 0
                     (scenario [] "true" "create"
                        (Err "gt: command not found") (Ok started) (Ok tt))
                     "ENG-123" "ENG" None)) = [].
Proof.
  pose proof (@fetch_and_spawn_errors_propagate 0
                (scenario [] "true" "create" (Err "gt: command not found")
                   (Ok started) (Ok tt)) "ENG-123" "ENG" None
                "gt: command not found") as H.
  cbv zeta in H. destruct H as (_ & H & _).
  destruct (H (ECommand "gt" ["create"; "eng-123"]%string Inherit))
    as (Hthrown & _ & Hupd); [simpl; tauto | reflexivity|].
  split; assumption.
Defined.

(** X9: inside [startWorkOnIssue], the suffix loop is still running after
    [fuel] evaluations of its condition exactly when the branch exists, the
    answer is not "switch" and the names b-1, ..., b-fuel are all taken; up
    to that point the run has fetched, probed [b], asked, and probed these
    names in order, and nothing else: no command has been run. *)
Theorem suffix_loop_still_running
    (fuel : nat) (w : World) (issueId teamId : string) (gitSourceRef : jsopt) :
  let r := startWorkOnIssue fuel w issueId teamId gitSourceRef in
  (fst r = OutOfFuel <->
   exists b,
     fetchIssueDetails w issueId true = Ok {| branchName := b |}
     /\ branchExists w b = true
     /\ Select_prompt w (prompt_message b) <> "switch"%string
     /\ forall j, (1 <= j <= N.of_nat fuel)%N ->
                  branchExists w (suffixed b j) = true)
  /\ (fst r = OutOfFuel ->
      exists b,
        snd r = EFetchIssueDetails issueId true :: EBranchExists b
                  :: EPrompt (prompt_message b)
                  :: probe_events b (suffixes_from 1 fuel)).
Proof.
  cbv zeta.
  destruct (run_forms fuel w issueId teamId gitSourceRef)
    as [(e' & Hfetch & Hr) | [(b & pre & Hfetch & (Hb & Hsw & Ht & ->) & Hr)
       | (b & pre & cmd & Hfetch & Hres & Hrun)]].
  - rewrite Hr. cbn [fst snd]. split; [split|]; try discriminate.
    intros (b & Hb & _). congruence.
  - rewrite Hr. cbn [fst snd]. split; [split|].
    + intros _. exists b. repeat split; auto. intros j Hj. apply Ht. lia.
    + reflexivity.
    + intros _. now exists b.
  - assert (Hnot : fst (startWorkOnIssue fuel w issueId teamId gitSourceRef)
                   <> OutOfFuel).
    { destruct Hrun as [(e' & _ & ->) | [(_ & ->) | (_ & msg & ->)]];
        cbn [fst]; try discriminate.
      destruct (issueStateStep_returns_or_exits w issueId teamId) as [-> | ->];
        discriminate. }
    split; [split|]; try (intros H; contradiction).
    intros (b' & Hfetch' & Hb & Hsw & Ht). exfalso.
    rewrite Hfetch in Hfetch'. injection Hfetch' as <-.
    destruct Hres as [(Hb' & _) | [(_ & Hsw' & _)
      | (_ & _ & k & Hk & _ & Hfree & _)]]; try congruence.
    rewrite Ht in Hfree by lia. discriminate.
Qed.

Lemma suffix_loop_still_running_witness :
  fst (startWorkOnIssue 2
         (scenario ["eng-123"; "eng-123-1"; "eng-123-2"] "false" "create"
            (Ok true) (Ok started) (Ok tt)) "ENG-123" "ENG" None)
  = OutOfFuel.
Proof.
  apply (@suffix_loop_still_running 2
           (scenario ["eng-123"; "eng-123-1"; "eng-123-2"] "false" "create"
              (Ok true) (Ok started) (Ok tt)) "ENG-123" "ENG" None).
  exists "eng-123"%string.
  split; [reflexivity|]. split; [reflexivity|]. split; [discriminate|].
  intros j Hj. assert (Hj' : j = 1%N \/ j = 2%N) by lia.
  destruct Hj' as [-> | ->]; reflexivity.
Defined.

(** X12: on every path (creation, switch, suffixed creation), when the
    branch command succeeds, [getStartedState] returns a state, [issueId] is
    not empty and [updateIssueState] resolves, the run returns normally, has
    called [updateIssueState] once with [issueId] and the id of that state,
    and ends with the confirmation line naming the state. *)
Theorem successful_run_updates_issue
    (fuel : nat) (w : World) (issueId teamId : string) (gitSourceRef : jsopt)
    (cmd : Event) (st : WorkflowState) :
  let r := startWorkOnIssue fuel w issueId teamId gitSourceRef in
  In cmd (snd r) ->
  command_result w cmd = Some (Ok true) ->
  getStartedState w teamId = Ok st ->
  issueId <> ""%string ->
  updateIssueState w issueId (id st) = Ok tt ->
  fst r = Returned tt
  /\ updates (snd r) = [EUpdateIssueState issueId (id st)]
  /\ exists pre msg,
       snd r = pre ++ [cmd; EConsoleLog msg; EGetStartedState teamId;
                       EUpdateIssueState issueId (id st);
                       EConsoleLog ("✓ Issue state updated to '"
                                    ++ name st ++ "'")].
Proof.
  cbv zeta. intros Hin Hres Hst Hid Hup.
  assert (Hc : is_command cmd = true) by (destruct cmd; easy).
  destruct (run_of_command fuel w issueId teamId gitSourceRef cmd Hin Hc)
    as (b & pre & _ & Hpre & [(e & He & _) | [(Hko & _) | (_ & msg & Hr)]]);
    try congruence.
  rewrite Hr.
  destruct (issueStateStep_cases w issueId teamId)
    as [(x & Hst' & _) | [(st' & _ & Hid' & _)
       | [(st' & x & Hst' & _ & Hup' & _) | (st' & Hst' & _ & _ & ->)]]].
  { rewrite Hst in Hst'. discriminate. }
  { contradiction. }
  { rewrite Hst in Hst'. injection Hst' as Heq. subst st'.
    rewrite Hup in Hup'. discriminate. }
  rewrite Hst in Hst'. injection Hst' as Heq. subst st'. cbn [fst snd].
  split; [reflexivity|]. split.
  - unfold updates. cbn [filter is_update]. rewrite filter_app.
    fold (updates pre).
    rewrite (silent_no_update (resolved_prefix_silent Hpre)).
    destruct cmd; try discriminate. reflexivity.
  - exists (EFetchIssueDetails issueId true :: pre), msg. reflexivity.
Qed.

Lemma successful_run_updates_issue_witness :
  updates (snd (startWorkOnIssue 0
                  (scenario ["eng-123"] "true" "switch" (Ok true)
                     (Ok started) (Ok tt)) "ENG-123" "ENG" None))
  = [EUpdateIssueState "ENG-123" "state-started"].
Proof.
  pose proof (@successful_run_updates_issue 0
                (scenario ["eng-123"] "true" "switch" (Ok true)
                   (Ok started) (Ok tt)) "ENG-123" "ENG" None
                (ECommand "gt" ["checkout"; "eng-123"]%string Inherit)
                started) as H.
  cbv zeta in H.
  destruct H as (_ & Hupd & _);
    [simpl; tauto | reflexivity | reflexivity | discriminate | reflexivity
    | exact Hupd].
Defined.

(** ** Leaving the process *)

(** Either the run never calls [Deno.exit], or it ends by exiting with
    status 1 right after a [console.error], and that is its only exit. *)
Definition exit_discipline (r : M unit) : Prop :=
  (exits (snd r) = [] /\ forall code, fst r <> Exited code)
  \/ (fst r = Exited 1
      /\ exists pre args,
           snd r = pre ++ [EConsoleError args; EExit 1] /\ exits pre = []).

(** X11: in the four exported functions, [Deno.exit] is only ever called
    with status 1, at most once, as the last event of the run and right
    after an error message; a run that does not end by exiting has called it
    nowhere. *)
Theorem exits_are_final_with_status_one
    (fuel : nat) (w : World) (issueId teamId projectId : string)
    (gitSourceRef providedId : jsopt) (options : OpenOptions) :
  exit_discipline (startWorkOnIssue fuel w issueId teamId gitSourceRef)
  /\ exit_discipline (openIssuePage w providedId options)
  /\ exit_discipline (openProjectPage w projectId options)
  /\ exit_discipline (openTeamAssigneeView w options).
Proof.
  unfold exit_discipline. split; [|split; [|split]].
  - destruct (run_forms fuel w issueId teamId gitSourceRef)
      as [(e' & _ & ->) | [(b & pre & _ & (_ & _ & _ & ->) & ->)
         | (b & pre & cmd & _ & Hres & Hrun)]].
    + left. split; [reflexivity | discriminate].
    + left. split; [|discriminate]. unfold exits. cbn [snd filter is_exit].
      now rewrite probe_events_filter.
    + pose proof (silent_no_exit (resolved_prefix_silent Hres)) as Hpre.
      destruct (resolved_shape Hres)
        as (asked & ns & c & args & io & _ & _ & -> & _).
      assert (Hcut : forall tail,
                exits (EFetchIssueDetails issueId true
                         :: pre ++ ECommand c args io :: tail) = exits tail).
      { intros tail. unfold exits in *. cbn [filter is_exit].
        rewrite filter_app, Hpre. reflexivity. }
      destruct Hrun as [(e' & _ & ->) | [(_ & ->) | (_ & msg & ->)]].
      * left. cbn [fst snd]. rewrite Hcut. split; [reflexivity | discriminate].
      * left. cbn [fst snd]. rewrite Hcut. split; [reflexivity | discriminate].
      * destruct (issueStateStep_cases w issueId teamId)
          as [(x & _ & ->) | [(st & _ & _ & ->) | [(st & x & _ & _ & _ & ->)
             | (st & _ & _ & _ & ->)]]]; cbn [fst snd];
          try (left; rewrite Hcut; split; [reflexivity | discriminate]).
        right. split; [reflexivity|].
        exists (EFetchIssueDetails issueId true
                  :: pre ++ [ECommand c args io; EConsoleLog msg;
                             EGetStartedState teamId]),
          ["No issue ID resolved"%string].
        split.
        { rewrite <- app_comm_cons, <- app_assoc. reflexivity. }
        { unfold exits in *. cbn [filter is_exit].
          rewrite filter_app, Hpre. reflexivity. }
  - unfold openIssuePage. rewrite bind_returned.
    destruct (falsy (getIssueIdentifier w providedId)).
    + right. split; [reflexivity|].
      now exists [EGetIssueIdentifier providedId],
        ["The current branch does not contain a valid linear issue id."%string].
    + destruct (falsy (getOption w "workspace")).
      * right. split; [reflexivity|].
        now exists [EGetIssueIdentifier providedId], workspace_error.
      * left. cbn [when]. cbv zeta.
        destruct (open w _ (open_target options));
          (split; [reflexivity | discriminate]).
  - unfold openProjectPage.
    destruct (falsy (getOption w "workspace")).
    + right. split; [reflexivity|]. now exists [], workspace_error.
    + left. cbn [when]. cbv zeta.
      destruct (open w _ (open_target options));
        (split; [reflexivity | discriminate]).
  - unfold openTeamAssigneeView.
    destruct (falsy (getTeamKey w)).
    + right. split; [reflexivity|].
      now exists [],
        ["Could not determine team id from configuration or directory name."%string].
    + destruct (falsy (getOption w "workspace")).
      * right. split; [reflexivity|]. now exists [], workspace_error.
      * left. cbn [when]. cbv zeta.
        destruct (open w _ (open_target options));
          (split; [reflexivity | discriminate]).
Qed.

(** ** The paths of the branch resolver *)

(** X1: when the issue's branch exists and the user selects "switch", the
    run probes that one name, asks its one question, and its only command
    is the checkout of the branch by the configured tool; no suffixed name
    is probed, the suffix loop is not entered and nothing is created. *)
Theorem switch_checks_out_existing_branch
    (fuel : nat) (w : World) (issueId teamId : string) (gitSourceRef : jsopt)
    (b : string) :
  fetchIssueDetails w issueId true = Ok {| branchName := b |} ->
  branchExists w b = true ->
  Select_prompt w (prompt_message b) = "switch"%string ->
  let r := startWorkOnIssue fuel w issueId teamId gitSourceRef in
  let checkout := checkout_command b (preferGraphite_of w) in
  (exists rest,
     snd r = EFetchIssueDetails issueId true :: EBranchExists b
               :: EPrompt (prompt_message b) :: checkout :: rest)
  /\ probes (snd r) = [EBranchExists b]
  /\ prompts (snd r) = [EPrompt (prompt_message b)]
  /\ commands (snd r) = [checkout]
  /\ fst r <> OutOfFuel.
Proof.
  intros Hfetch Hb Hsw. cbv zeta.
  destruct (run_forms fuel w issueId teamId gitSourceRef)
    as [(e' & Hfetch' & _) | [(b' & pre & Hfetch' & (_ & Hsw' & _) & _)
       | (b' & pre & cmd & Hfetch' & Hres & Hrun)]];
    rewrite Hfetch in Hfetch'; try discriminate;
    injection Hfetch' as <-; try contradiction.
  destruct Hres as [(Hb' & _) | [(_ & _ & -> & ->) | (_ & Hsw' & _)]];
    try congruence.
  assert (Hstep : forall f,
            (forall e, step_event e = true -> f e = false) ->
            filter f (snd (issueStateStep w issueId teamId true)) = []).
  { intros f Hf. apply step_events_filter; [exact Hf|].
    apply issueStateStep_events. }
  destruct Hrun as [(e' & _ & ->) | [(_ & ->) | (_ & msg & ->)]];
    unfold probes, prompts, commands, checkout_command;
    destruct (preferGraphite_of w);
    cbn [fst snd]; rewrite <- ?app_comm_cons, ?app_nil_l;
    cbn [filter is_probe is_prompt is_command];
    repeat split; try (eexists; reflexivity); try discriminate;
    try (rewrite Hstep; [reflexivity | intros e; destruct e; easy]);
    destruct (issueStateStep_returns_or_exits w issueId teamId) as [-> | ->];
    discriminate.
Qed.

Lemma switch_checks_out_existing_branch_witness :
  commands (snd (startWorkOnIssue 0
                   (scenario ["eng-123"] "true" "switch" (Ok true)
                      (Ok started) (Ok tt)) "ENG-123" "ENG"
                   (Some "main"%string)))
  = [ECommand "gt" ["checkout"; "eng-123"]%string Inherit].
Proof.
  pose proof (@switch_checks_out_existing_branch 0
                (scenario ["eng-123"] "true" "switch" (Ok true)
                   (Ok started) (Ok tt)) "ENG-123" "ENG"
                (Some "main"%string) "eng-123" eq_refl eq_refl eq_refl) as H.
  cbv zeta in H. destruct H as (_ & _ & _ & Hc & _). exact Hc.
Defined.

(** X13: when the issue's branch exists and the answer is anything but
    "switch", the existing branch is neither checked out nor created again:
    a command of the run, if there is one, creates [b-n] for the least
    suffix [n >= 1] whose name is free. *)
Theorem other_answers_create_a_free_suffixed_branch
    (fuel : nat) (w : World) (issueId teamId : string) (gitSourceRef : jsopt)
    (b : string) (cmd : Event) :
  fetchIssueDetails w issueId true = Ok {| branchName := b |} ->
  branchExists w b = true ->
  Select_prompt w (prompt_message b) <> "switch"%string ->
  In cmd (snd (startWorkOnIssue fuel w issueId teamId gitSourceRef)) ->
  is_command cmd = true ->
  exists n,
    (1 <= n)%N
    /\ cmd = create_command (suffixed b n) (preferGraphite_of w) gitSourceRef
    /\ branchExists w (suffixed b n) = false
    /\ forall j, (1 <= j < n)%N -> branchExists w (suffixed b j) = true.
Proof.
  intros Hfetch Hb Hsw Hin Hc.
  destruct (run_of_command fuel w issueId teamId gitSourceRef cmd Hin Hc)
    as (b' & pre & Hfetch' & Hres & _).
  rewrite Hfetch in Hfetch'. injection Hfetch' as <-.
  destruct Hres as [(Hb' & _) | [(_ & Hsw' & _)
    | (_ & _ & k & _ & Htaken & Hfree & _ & ->)]]; try congruence.
  exists (1 + N.of_nat k)%N. repeat split; auto. lia.
Qed.

Lemma other_answers_create_a_free_suffixed_branch_witness :
  exists n,
    (1 <= n)%N
    /\ ECommand "git" ["checkout"; "-b"; "eng-123-2"; "HEAD"]%string Piped
       = create_command (suffixed "eng-123" n)
           (preferGraphite_of
              (scenario ["eng-123"; "eng-123-1"] "false" "" (Ok false)
                 (Ok started) (Ok tt))) None
    /\ branchExists
         (scenario ["eng-123"; "eng-123-1"] "false" "" (Ok false)
            (Ok started) (Ok tt)) (suffixed "eng-123" n) = false
    /\ forall j, (1 <= j < n)%N ->
         branchExists
           (scenario ["eng-123"; "eng-123-1"] "false" "" (Ok false)
              (Ok started) (Ok tt)) (suffixed "eng-123" j) = true.
Proof.
  apply (@other_answers_create_a_free_suffixed_branch 2
           (scenario ["eng-123"; "eng-123-1"] "false" "" (Ok false)
              (Ok started) (Ok tt)) "ENG-123" "ENG" None "eng-123"
           (ECommand "git" ["checkout"; "-b"; "eng-123-2"; "HEAD"]%string
              Piped) eq_refl eq_refl).
  - discriminate.
  - simpl. tauto.
  - reflexivity.
Defined.

(** ** The source ref *)

Lemma createBranch_source_ref w b pg g g' :
  pg = true \/ or_else g "HEAD" = or_else g' "HEAD" ->
  createBranch w b pg g = createBranch w b pg g'.
Proof.
  intros [-> | Heq]; [reflexivity|].
  unfold createBranch. destruct pg; [reflexivity|]. now rewrite Heq.
Qed.

(** X4: the source ref only reaches [git checkout -b]: with
    [prefer_graphite] set to "true" the run does not depend on it at all,
    and with plain git two refs that give the same [gitSourceRef || "HEAD"]
    (an empty ref and no ref, for one) give the same run. *)
Theorem source_ref_only_for_plain_creation
    (fuel : nat) (w : World) (issueId teamId : string) (g g' : jsopt) :
  getOption w "prefer_graphite" = Some "true"%string
  \/ or_else g "HEAD" = or_else g' "HEAD" ->
  startWorkOnIssue fuel w issueId teamId g
  = startWorkOnIssue fuel w issueId teamId g'.
Proof.
  intros H.
  assert (Hc : forall b, createBranch w b (preferGraphite_of w) g
                         = createBranch w b (preferGraphite_of w) g').
  { intros b. apply createBranch_source_ref.
    destruct H as [H | H]; [left | now right].
    now apply preferGraphite_of_true. }
  rewrite !startWorkOnIssue_halves. apply bind_ext. intros details.
  f_equal. unfold branchOperation. apply bind_ext. intros present.
  destruct present; [|apply Hc].
  apply bind_ext. intros answer.
  destruct (answer =? "switch")%string; [reflexivity|].
  apply bind_ext. intros newBranch. apply Hc.
Qed.

Lemma source_ref_only_for_plain_creation_witness :
  startWorkOnIssue 0
    (scenario [] "true" "create" (Ok true) (Ok started) (Ok tt))
    "ENG-123" "ENG" (Some "main"%string)
  = startWorkOnIssue 0
      (scenario [] "true" "create" (Ok true) (Ok started) (Ok tt))
      "ENG-123" "ENG" None
  /\ startWorkOnIssue 0
       (scenario [] "false" "create" (Ok true) (Ok started) (Ok tt))
       "ENG-123" "ENG" (Some ""%string)
     = startWorkOnIssue 0
         (scenario [] "false" "create" (Ok true) (Ok started) (Ok tt))
         "ENG-123" "ENG" None.
Proof.
  split.
  - apply source_ref_only_for_plain_creation. left. reflexivity.
  - apply source_ref_only_for_plain_creation. right. reflexivity.
Defined.

(** ** The suffix search on its own *)

(** X8: whenever [findAvailableBranchName] returns, the name it returns is
    [b-n] for some [n >= 1], that name is free, the names of all smaller
    suffixes are taken, and the search has probed exactly b-1, ..., b-n. *)
Theorem search_returns_least_free
    (fuel : nat) (w : World) (b name : string) (t : trace) :
  findAvailableBranchName fuel w b = (Returned name, t) ->
  exists n,
    (1 <= n <= N.of_nat fuel)%N
    /\ name = suffixed b n
    /\ branchExists w name = false
    /\ (forall j, (1 <= j < n)%N -> branchExists w (suffixed b j) = true)
    /\ t = map (fun k => EBranchExists (suffixed b (N.of_nat k)))
               (seq 1 (N.to_nat n)).
Proof.
  unfold findAvailableBranchName. intros Hrun.
  destruct (loop_cases w b fuel 1)
    as [(k & Hk & Htaken & Hfree & Hr) | (_ & Hr)];
    rewrite Hr in Hrun; [|discriminate].
  injection Hrun as <- <-.
  exists (1 + N.of_nat k)%N. split; [lia|]. split; [reflexivity|].
  split; [exact Hfree|]. split; [exact Htaken|].
  rewrite probe_events_seq.
  replace (N.to_nat (1 + N.of_nat k)) with (S k) by lia. reflexivity.
Qed.

Lemma search_returns_least_free_witness :
  exists n,
    (1 <= n <= N.of_nat 5)%N
    /\ "eng-123-3"%string = suffixed "eng-123" n
    /\ branchExists
         (scenario ["eng-123"; "eng-123-1"; "eng-123-2"] "false" "create"
            (Ok true) (Ok started) (Ok tt)) "eng-123-3" = false
    /\ (forall j, (1 <= j < n)%N ->
          branchExists
            (scenario ["eng-123"; "eng-123-1"; "eng-123-2"] "false" "create"
               (Ok true) (Ok started) (Ok tt)) (suffixed "eng-123" j) = true)
    /\ [EBranchExists "eng-123-1"; EBranchExists "eng-123-2";
        EBranchExists "eng-123-3"]
       = map (fun k => EBranchExists (suffixed "eng-123" (N.of_nat k)))
             (seq 1 (N.to_nat n)).
Proof.
  apply (@search_returns_least_free 5
           (scenario ["eng-123"; "eng-123-1"; "eng-123-2"] "false" "create"
              (Ok true) (Ok started) (Ok tt)) "eng-123" "eng-123-3").
  reflexivity.
Defined.

(** ** The adapter *)

(** X14: [checkoutBranch] and [createBranch] run exactly one command and
    return [true] exactly when it reports success; they print one
    confirmation line then, and nothing at all when it fails. *)
Theorem adapter_reports_command_status
    (w : World) (b : string) (pg : bool) (g : jsopt) :
  let check := checkoutBranch w b pg in
  let create := createBranch w b pg g in
  (fst check = Returned true <->
   command_result w (checkout_command b pg) = Some (Ok true))
  /\ (fst create = Returned true <->
      command_result w (create_command b pg g) = Some (Ok true))
  /\ commands (snd check) = [checkout_command b pg]
  /\ commands (snd create) = [create_command b pg g]
  /\ (fst check <> Returned true -> snd check = [checkout_command b pg])
  /\ (fst create <> Returned true -> snd create = [create_command b pg g]).
Proof.
  cbv zeta.
  pose proof (checkoutBranch_vcs_run w b pg) as Hk.
  pose proof (createBranch_vcs_run w b pg g) as Hc.
  unfold vcs_run in Hk, Hc.
  assert (Hkc : is_command (checkout_command b pg) = true)
    by (destruct pg; reflexivity).
  assert (Hcc : is_command (create_command b pg g) = true)
    by (destruct pg; reflexivity).
  destruct (command_result w (checkout_command b pg)) as [[[|]|e]|];
    [destruct Hk as (msg & ->) | rewrite Hk | rewrite Hk | contradiction];
    (destruct (command_result w (create_command b pg g)) as [[[|]|e']|];
     [destruct Hc as (msg' & ->) | rewrite Hc | rewrite Hc | contradiction]);
    unfold commands; cbn [fst snd filter]; rewrite ?Hkc, ?Hcc;
    cbn [is_command];
    repeat split; intros; try reflexivity; try discriminate;
    try congruence.
Qed.

Lemma adapter_reports_command_status_witness :
  snd (checkoutBranch
         (scenario ["eng-123"] "false" "switch" (Ok false) (Ok started)
            (Ok tt)) "eng-123" false)
  = [ECommand "git" ["checkout"; "eng-123"]%string Piped].
Proof.
  pose proof (adapter_reports_command_status
                (scenario ["eng-123"] "false" "switch" (Ok false)
                   (Ok started) (Ok tt)) "eng-123" false None) as H.
  cbv zeta in H. destruct H as (_ & _ & _ & _ & H & _).
  apply H. discriminate.
Defined.

(** ** Names probed by a run *)

Lemma num_to_string_inj (n m : N) :
  num_to_string n = num_to_string m -> n = m.
Proof.
  unfold num_to_string. intros H.
  assert (Hnil : forall k, N.to_uint k <> Decimal.Nil).
  { intros [|p]; [discriminate | apply DecimalPos.Unsigned.to_uint_nonnil]. }
  pose proof (NilZero.usu (N.to_uint n) (Hnil n)) as Hn.
  pose proof (NilZero.usu (N.to_uint m) (Hnil m)) as Hm.
  rewrite H in Hn. rewrite Hn in Hm. injection Hm as Hm.
  now apply DecimalN.Unsigned.to_uint_inj.
Qed.

Lemma append_inj_l (p s t : string) : (p ++ s = p ++ t)%string -> s = t.
Proof.
  induction p as [|c p IH]; simpl; [auto|].
  intros H. injection H as H. auto.
Qed.

Lemma append_not_self (p : string) (c : ascii) (s : string) :
  (p ++ String c s)%string <> p.
Proof.
  induction p as [|a p IH]; simpl; [discriminate|].
  intros H. injection H as H. auto.
Qed.

Lemma suffixed_inj b (n m : N) : suffixed b n = suffixed b m -> n = m.
Proof.
  unfold suffixed. intros H. apply append_inj_l in H.
  apply (append_inj_l "-") in H. now apply num_to_string_inj.
Qed.

Lemma suffixed_not_base b (n : N) : suffixed b n <> b.
Proof. unfold suffixed. apply append_not_self. Qed.

Lemma suffixes_from_NoDup first count : NoDup (suffixes_from first count).
Proof.
  revert first. induction count as [|count IH]; intros first; simpl;
    constructor; [|apply IH].
  rewrite suffixes_from_In. lia.
Qed.

Lemma probe_events_NoDup b ns : NoDup ns -> NoDup (probe_events b ns).
Proof.
  unfold probe_events. induction 1 as [|n ns Hn _ IH]; simpl; constructor;
    [|exact IH].
  intros Hin. apply in_map_iff in Hin. destruct Hin as (m & Heq & Hm).
  injection Heq as Heq. apply suffixed_inj in Heq. now subst m.
Qed.

(** X5: a run of [startWorkOnIssue] never asks about the same branch name
    twice: the names [b-1], [b-2], ... differ from one another and from [b]. *)
Theorem no_name_probed_twice
    (fuel : nat) (w : World) (issueId teamId : string) (gitSourceRef : jsopt) :
  NoDup (probes (snd (startWorkOnIssue fuel w issueId teamId gitSourceRef))).
Proof.
  assert (Hpre : forall b (asked : trace) ns,
            (asked = [] \/ asked = [EPrompt (prompt_message b)]) ->
            NoDup ns ->
            NoDup (probes (EBranchExists b :: asked ++ probe_events b ns))).
  { intros b asked ns Hasked Hns. unfold probes. cbn [filter is_probe].
    rewrite filter_app.
    replace (filter is_probe asked) with (@nil Event)
      by (destruct Hasked as [-> | ->]; reflexivity).
    cbn [app].
    replace (filter is_probe (probe_events b ns)) with (probe_events b ns).
    - constructor; [|now apply probe_events_NoDup].
      intros Hin. apply in_map_iff in Hin. destruct Hin as (n & Heq & _).
      injection Heq as Heq. now apply suffixed_not_base in Heq.
    - clear. induction ns as [|n ns IH]; [reflexivity|].
      simpl. now rewrite <- IH. }
  assert (Hstep : probes (snd (issueStateStep w issueId teamId true)) = []).
  { apply step_events_filter; [intros e; destruct e; easy|].
    apply issueStateStep_events. }
  destruct (run_forms fuel w issueId teamId gitSourceRef)
    as [(e' & _ & ->) | [(b & pre & _ & (_ & _ & _ & ->) & ->)
       | (b & pre & cmd & _ & Hres & Hrun)]].
  - cbn. constructor.
  - cbn [snd].
    change (NoDup (probes (EBranchExists b :: [EPrompt (prompt_message b)]
                             ++ probe_events b (suffixes_from 1 fuel)))).
    apply Hpre; [now right | apply suffixes_from_NoDup].
  - destruct (resolved_shape Hres)
      as (asked & ns & c & args & io & Hpre_eq & Hasked & -> & _).
    assert (Hns : NoDup (probes pre)).
    { destruct Hres as [(_ & -> & _) | [(_ & _ & -> & _)
        | (_ & _ & k & _ & _ & _ & -> & _)]].
      - apply (Hpre b [] []); [now left | constructor].
      - apply (Hpre b [EPrompt (prompt_message b)] []);
          [now right | constructor].
      - apply (Hpre b [EPrompt (prompt_message b)] (suffixes_from 1 (S k)));
          [now right | apply suffixes_from_NoDup]. }
    assert (Hcut : forall tail,
              probes tail = [] ->
              probes (EFetchIssueDetails issueId true
                        :: pre ++ ECommand c args io :: tail) = probes pre).
    { intros tail Ht. unfold probes in *. cbn [filter is_probe].
      rewrite filter_app. cbn [filter is_probe]. rewrite Ht.
      apply app_nil_r. }
    destruct Hrun as [(e' & _ & ->) | [(_ & ->) | (_ & msg & ->)]];
      cbn [snd]; rewrite Hcut; auto.
Qed.

(** ** The page openers *)

(** X6: an identifier that is undefined or the empty string is unresolved:
    [openIssuePage] without an issue id and [openTeamAssigneeView] without a
    team key print their own message and exit with status 1 before the
    workspace is looked at, whatever the configuration; an empty workspace
    is as good as none. *)
Theorem unresolved_identifiers_exit
    (w : World) (providedId : jsopt) (projectId : string)
    (options : OpenOptions) :
  (falsy (getIssueIdentifier w providedId) = true ->
   openIssuePage w providedId options
   = (Exited 1,
      [EGetIssueIdentifier providedId;
       EConsoleError
         ["The current branch does not contain a valid linear issue id."%string];
       EExit 1]))
  /\ (falsy (getTeamKey w) = true ->
      openTeamAssigneeView w options
      = (Exited 1,
         [EConsoleError
            ["Could not determine team id from configuration or directory name."%string];
          EExit 1]))
  /\ (falsy (getOption w "workspace") = true ->
      (fst (openIssuePage w providedId options) = Exited 1
       /\ opens (snd (openIssuePage w providedId options)) = [])
      /\ openProjectPage w projectId options
         = (Exited 1, [EConsoleError workspace_error; EExit 1])
      /\ (fst (openTeamAssigneeView w options) = Exited 1
          /\ opens (snd (openTeamAssigneeView w options)) = [])).
Proof.
  split; [|split].
  - intros H. unfold openIssuePage. rewrite bind_returned, H. reflexivity.
  - intros H. unfold openTeamAssigneeView. rewrite H. reflexivity.
  - intros H. split; [|split].
    + unfold openIssuePage. rewrite bind_returned, H.
      destruct (falsy (getIssueIdentifier w providedId)); split; reflexivity.
    + unfold openProjectPage. rewrite H. reflexivity.
    + unfold openTeamAssigneeView. rewrite H.
      destruct (falsy (getTeamKey w)); split; reflexivity.
Qed.

Lemma unresolved_identifiers_exit_witness :
  openIssuePage
    {| getIssueIdentifier := fun _ => Some ""%string;
       getTeamKey := Some ""%string;
       fetchIssueDetails := fun _ _ => Err "offline";
       getStartedState := fun _ => Err "offline";
       updateIssueState := fun _ _ => Err "offline";
       getOption := fun _ => Some ""%string;
       branchExists := fun _ => false;
       Select_prompt := fun _ => "switch"%string;
       Deno_Command := fun _ _ => Ok true;
       open := fun _ _ => Ok tt |} None {| app := None; web := None |}
  = (Exited 1,
     [EGetIssueIdentifier None;
      EConsoleError
        ["The current branch does not contain a valid linear issue id."%string];
      EExit 1])
  /\ openProjectPage
       {| getIssueIdentifier := fun _ => Some ""%string;
          getTeamKey := Some ""%string;
          fetchIssueDetails := fun _ _ => Err "offline";
          getStartedState := fun _ => Err "offline";
          updateIssueState := fun _ _ => Err "offline";
          getOption := fun _ => Some ""%string;
          branchExists := fun _ => false;
          Select_prompt := fun _ => "switch"%string;
          Deno_Command := fun _ _ => Ok true;
          open := fun _ _ => Ok tt |} "roadmap"
       {| app := None; web := None |}
     = (Exited 1, [EConsoleError workspace_error; EExit 1]).
Proof.
  split.
  - apply unresolved_identifiers_exit; [exact "roadmap"%string | reflexivity].
  - apply (unresolved_identifiers_exit _ None "roadmap"
             {| app := None; web := None |}).
    reflexivity.
Defined.

(** The destination named in the announcement. *)
Definition destination_of (options : OpenOptions) : string :=
  match app options with Some true => "Linear.app" | _ => "web browser" end.

(** X7: with the workspace and the identifier resolved, [openIssuePage] and
    [openProjectPage] announce the URL and its destination, then hand the
    URL to the opener, for the desktop app exactly when [options.app] is
    true; they return when the opener resolves and throw its error when it
    rejects.  [openTeamAssigneeView] opens its URL without announcing it.
    The [web] option changes nothing. *)
Theorem pages_announced_then_opened
    (w : World) (ws x : string) (providedId : jsopt) (options : OpenOptions) :
  getOption w "workspace" = Some ws -> ws <> ""%string -> x <> ""%string ->
  let outcome_of (url : string) : outcome unit :=
    match open w url (open_target options) with
    | Ok _ => Returned tt
    | Err e => Thrown e
    end in
  (getIssueIdentifier w providedId = Some x ->
   let url := ("https://linear.app/" ++ ws ++ "/issue/" ++ x)%string in
   openIssuePage w providedId options
   = (outcome_of url,
      [EGetIssueIdentifier providedId;
       EConsoleLog ("Opening " ++ url ++ " in " ++ destination_of options);
       EOpen url (open_target options)]))
  /\ (let url := ("https://linear.app/" ++ ws ++ "/project/" ++ x)%string in
      openProjectPage w x options
      = (outcome_of url,
         [EConsoleLog ("Opening " ++ url ++ " in " ++ destination_of options);
          EOpen url (open_target options)]))
  /\ (getTeamKey w = Some x ->
      let url := ("https://linear.app/" ++ ws ++ "/team/" ++ x
                  ++ "/active?filter=" ++ encodedFilter)%string in
      openTeamAssigneeView w options
      = (outcome_of url, [EOpen url (open_target options)]))
  /\ (open_target options = Some "Linear"%string <-> app options = Some true)
  /\ (forall web',
        openIssuePage w providedId {| app := app options; web := web' |}
        = openIssuePage w providedId options
        /\ openProjectPage w x {| app := app options; web := web' |}
           = openProjectPage w x options
        /\ openTeamAssigneeView w {| app := app options; web := web' |}
           = openTeamAssigneeView w options).
Proof.
  intros Hws Hne Hx. cbv zeta.
  apply String.eqb_neq in Hne. apply String.eqb_neq in Hx.
  split; [|split; [|split; [|split]]].
  - intros Hid. unfold openIssuePage.
    rewrite Hws, Hid, bind_returned. unfold falsy, when.
    rewrite Hne, Hx. cbn [interp]. unfold destination_of.
    destruct (open w _ (open_target options)) as [[]|e]; reflexivity.
  - unfold openProjectPage. rewrite Hws. unfold falsy, when.
    rewrite Hne. cbn [interp]. unfold destination_of.
    destruct (open w _ (open_target options)) as [[]|e]; reflexivity.
  - intros Hteam. unfold openTeamAssigneeView. rewrite Hws, Hteam.
    unfold falsy, when. rewrite Hne, Hx. cbn [interp].
    destruct (open w _ (open_target options)) as [[]|e]; reflexivity.
  - unfold open_target. destruct (app options) as [[|]|]; split;
      intros H; try reflexivity; discriminate.
  - intros web'. repeat split.
Qed.

Lemma pages_announced_then_opened_witness :
  openIssuePage
    (scenario [] "false" "create" (Ok true) (Ok started) (Ok tt))
    (Some "ENG-123"%string) {| app := None; web := Some true |}
  = (Returned tt,
     [EGetIssueIdentifier (Some "ENG-123"%string);
      EConsoleLog
        "Opening https://linear.app/acme/issue/ENG-123 in web browser";
      EOpen "https://linear.app/acme/issue/ENG-123" None]).
Proof.
  pose proof (@pages_announced_then_opened
                (scenario [] "false" "create" (Ok true) (Ok started) (Ok tt))
                "acme" "ENG-123" (Some "ENG-123"%string)
                {| app := None; web := Some true |} eq_refl) as H.
  cbv zeta in H. destruct H as (H & _); [discriminate | discriminate|].
  apply H. reflexivity.
Defined.

(** ** The tool of a run *)

(** X15: every command of a run goes to the tool the configuration
    selects: [gt] with the terminal's streams inherited when
    [prefer_graphite] is "true", [git] with piped streams otherwise; no run
    mixes the two, and the subcommand is a checkout or a creation. *)
Theorem commands_follow_configured_tool
    (fuel : nat) (w : World) (issueId teamId : string) (gitSourceRef : jsopt)
    (tool : string) (args : list string) (io : stdio) :
  In (ECommand tool args io)
     (snd (startWorkOnIssue fuel w issueId teamId gitSourceRef)) ->
  (getOption w "prefer_graphite" = Some "true"%string
   /\ tool = "gt"%string /\ io = Inherit
   /\ exists b, args = ["checkout"; b]%string \/ args = ["create"; b]%string)
  \/ (getOption w "prefer_graphite" <> Some "true"%string
      /\ tool = "git"%string /\ io = Piped
      /\ exists b,
           args = ["checkout"; b]%string
           \/ args = ["checkout"; "-b"; b;
                      or_else gitSourceRef "HEAD"]%string).
Proof.
  intros Hin.
  destruct (run_of_command fuel w issueId teamId gitSourceRef _ Hin eq_refl)
    as (b & pre & _ & Hres & _).
  assert (Hcmd : ECommand tool args io
                 = checkout_command b (preferGraphite_of w)
                 \/ exists n,
                      ECommand tool args io
                      = create_command n (preferGraphite_of w) gitSourceRef).
  { destruct Hres as [(_ & _ & ->) | [(_ & _ & _ & ->)
      | (_ & _ & k & _ & _ & _ & _ & ->)]]; eauto. }
  pose proof (preferGraphite_of_true w) as Hpg.
  destruct (preferGraphite_of w).
  - left. split; [now apply Hpg|].
    destruct Hcmd as [Heq | (n & Heq)]; injection Heq as -> -> ->.
    + repeat split. exists b. now left.
    + repeat split. exists n. now right.
  - right. split; [intros H; apply Hpg in H; discriminate|].
    destruct Hcmd as [Heq | (n & Heq)]; injection Heq as -> -> ->.
    + repeat split. exists b. now left.
    + repeat split. exists n. now right.
Qed.

Lemma commands_follow_configured_tool_witness :
  getOption (scenario [] "false" "create" (Ok true) (Ok started) (Ok tt))
    "prefer_graphite" <> Some "true"%string
  /\ exists b,
       ["checkout"; "-b"; "eng-123"; "HEAD"]%string = ["checkout"; b]%string
       \/ ["checkout"; "-b"; "eng-123"; "HEAD"]%string
          = ["checkout"; "-b"; b; or_else None "HEAD"]%string.
Proof.
  destruct (@commands_follow_configured_tool 0
              (scenario [] "false" "create" (Ok true) (Ok started) (Ok tt))
              "ENG-123" "ENG" None "git"
              ["checkout"; "-b"; "eng-123"; "HEAD"]%string Piped)
    as [(_ & Hgt & _) | (Hpg & _ & _ & Hargs)].
  - simpl. tauto.
  - discriminate.
  - split; assumption.
Defined.

(** ** The encoding of the filter, for any text *)

(** X16: encoding a text in base64 and removing every [=] loses nothing:
    the result holds no [=], putting the padding back and decoding gives
    the text, and two texts with the same stripped encoding are equal. *)
Theorem stripped_encoding_lossless (s s' : string) :
  ~ In "="%char (list_ascii_of_string (remove_equals (encodeBase64 s)))
  /\ decodeBase64 (restore_padding (remove_equals (encodeBase64 s))) = Some s
  /\ (remove_equals (encodeBase64 s) = remove_equals (encodeBase64 s') ->
      s = s').
Proof.
  split; [apply remove_equals_no_pad|].
  split; [apply stripped_base64_round_trip|].
  intros Heq.
  pose proof (stripped_base64_round_trip s) as Hs.
  rewrite Heq, stripped_base64_round_trip in Hs. now injection Hs.
Qed.

Lemma stripped_encoding_lossless_witness :
  decodeBase64 (restore_padding "bGlnaHQgd29yay4") = Some "light work."%string.
Proof.
  exact (proj1 (proj2 (stripped_encoding_lossless "light work." ""))).
Defined.
